(** * Origin validation and fetch pipeline

    A shallow embedding of the two TypeScript classes
    - [OriginFetcher]     (services/image-processing/origin-fetcher.ts)
    - [ConnectionManager] (services/request-resolver/connection-manager/connection-manager.ts)
    and of the ECMAScript / Node primitives they call, followed by the
    properties the specification states about them.

    Conventions.
    - A JavaScript string is a Rocq [string]: a sequence of code units in
      the range U+0000..U+00FF (the range of an HTTP header value as Node
      decodes it).  Code units above U+00FF are outside the model.
    - A [Buffer] is a [list byte].
    - A thrown value is a [thrown]; a call that may throw returns a
      [result].  Code with side effects runs in the monad [M]. *)

From Stdlib Require Import String Ascii List ZArith NArith Bool Lia DecimalString.
From Stdlib.Strings Require Import Byte.
Import ListNotations.
Open Scope string_scope.

(* ===================================================================== *)
(** ** ECMAScript primitives *)
(* ===================================================================== *)

Module JS.

(** [s.startsWith(p)] *)
Fixpoint startsWith (s p : string) {struct p} : bool :=
  match p with
  | EmptyString => true
  | String c p' =>
      match s with
      | EmptyString => false
      | String d s' => Ascii.eqb d c && startsWith s' p'
      end
  end.

(** [s.includes(sub)] *)
Fixpoint includes (s sub : string) {struct s} : bool :=
  startsWith s sub ||
  match s with
  | EmptyString => false
  | String _ s' => includes s' sub
  end.

(** Case mapping of one code unit of U+0000..U+00FF.  Lower-casing is
    closed on that range: A-Z and U+00C0..U+00DE (without U+00D7) move up
    by 32.  Upper-casing moves a-z and U+00E0..U+00FE (without U+00F7) down
    by 32; the three code units whose upper case leaves the range
    (U+00B5, U+00DF, U+00FF) are left in place: the code upper-cases hex
    digits only. *)
Definition lower_char (c : ascii) : ascii :=
  let n := N_of_ascii c in
  if ((65 <=? n) && (n <=? 90) ||
      (192 <=? n) && (n <=? 222) && negb (n =? 215))%N
  then ascii_of_N (n + 32) else c.

Definition upper_char (c : ascii) : ascii :=
  let n := N_of_ascii c in
  if ((97 <=? n) && (n <=? 122) ||
      (224 <=? n) && (n <=? 254) && negb (n =? 247))%N
  then ascii_of_N (n - 32) else c.

Fixpoint map_string (f : ascii -> ascii) (s : string) : string :=
  match s with
  | EmptyString => EmptyString
  | String c s' => String (f c) (map_string f s')
  end.

Definition toLowerCase : string -> string := map_string lower_char.
Definition toUpperCase : string -> string := map_string upper_char.

(** White space and line terminators of ECMAScript within U+0000..U+00FF:
    TAB, LF, VT, FF, CR, SP and NBSP. *)
Definition is_space (c : ascii) : bool :=
  let n := N_of_ascii c in
  ((9 <=? n) && (n <=? 13) || (n =? 32) || (n =? 160))%N.

Fixpoint trimStart (s : string) : string :=
  match s with
  | EmptyString => EmptyString
  | String c s' => if is_space c then trimStart s' else s
  end.

Fixpoint trimEnd (s : string) : string :=
  match s with
  | EmptyString => EmptyString
  | String c s' =>
      match trimEnd s' with
      | EmptyString => if is_space c then EmptyString else String c EmptyString
      | r => String c r
      end
  end.

(** [s.trim()] *)
Definition trim (s : string) : string := trimEnd (trimStart s).

(** [s.split(sep)] for a separator of one code unit. *)
Fixpoint split (sep : ascii) (s : string) : list string :=
  match s with
  | EmptyString => [EmptyString]
  | String c s' =>
      if Ascii.eqb c sep then EmptyString :: split sep s'
      else match split sep s' with
           | piece :: rest => String c piece :: rest
           | [] => [String c EmptyString]
           end
  end.

Fixpoint drop (n : nat) (s : string) : string :=
  match n, s with
  | S n', String _ s' => drop n' s'
  | _, _ => s
  end.

(** [s.replace(pat, rep)] with a string pattern: the first occurrence
    only; [rep] holds no [$] pattern. *)
Fixpoint replace (s pat rep : string) {struct s} : string :=
  if startsWith s pat then rep ++ drop (String.length pat) s
  else match s with
       | EmptyString => EmptyString
       | String c s' => String c (replace s' pat rep)
       end.

(** Truthiness of an optional string: [undefined], [null] and [''] are
    falsy. *)
Definition truthy (o : option string) : bool :=
  match o with
  | Some s => negb (s =? "")
  | None => false
  end.

(** *** Objects used as tables *)

Definition is_digit (c : ascii) : bool :=
  let n := N_of_ascii c in ((48 <=? n) && (n <=? 57))%N.

Fixpoint all_digits (s : string) : bool :=
  match s with
  | EmptyString => true
  | String c s' => is_digit c && all_digits s'
  end.

Fixpoint digits_value (acc : N) (s : string) : N :=
  match s with
  | EmptyString => acc
  | String c s' => digits_value (acc * 10 + (N_of_ascii c - 48)) s'
  end.

(** A property key is an array index when it is the canonical decimal
    form of an integer in 0 .. 2^32 - 2. *)
Definition array_index (k : string) : option N :=
  match k with
  | EmptyString => None
  | String c rest =>
      if all_digits k && (negb (Ascii.eqb c "0") || (rest =? ""))
      then let v := digits_value 0 k in
           if (v <=? 4294967294)%N then Some v else None
      else None
  end.

Section Entries.
Context {V : Type}.

Fixpoint insert_index (i : N) (kv : string * V)
         (l : list (N * (string * V))) : list (N * (string * V)) :=
  match l with
  | [] => [(i, kv)]
  | (j, kv') :: l' =>
      if (i <? j)%N then (i, kv) :: l
      else (j, kv') :: insert_index i kv l'
  end.

Fixpoint index_entries (l : list (string * V)) : list (N * (string * V)) :=
  match l with
  | [] => []
  | (k, v) :: l' =>
      match array_index k with
      | Some i => insert_index i (k, v) (index_entries l')
      | None => index_entries l'
      end
  end.

Definition is_index_key (kv : string * V) : bool :=
  match array_index (fst kv) with Some _ => true | None => false end.

(** [Object.entries(o)] for an object literal [o] whose properties,
    with distinct keys, are written in the order [l]: array-index keys
    come first in ascending numeric order, then the other keys in the
    order they were written. *)
Definition entries (l : list (string * V)) : list (string * V) :=
  map snd (index_entries l) ++ filter (fun kv => negb (is_index_key kv)) l.

Fixpoint own (l : list (string * V)) (k : string) : option V :=
  match l with
  | [] => None
  | (k', v) :: l' => if k' =? k then Some v else own l' k
  end.
End Entries.

(** The properties every object literal inherits from [Object.prototype],
    each with the text a template literal renders it as.  All of them are
    truthy. *)
Definition native (name : string) : string :=
  "function " ++ name ++ "() { [native code] }".

Definition object_prototype (k : string) : option string :=
  if k =? "constructor" then Some (native "Object")
  else if k =? "__proto__" then Some "[object Object]"
  else if (k =? "hasOwnProperty") || (k =? "isPrototypeOf") ||
          (k =? "propertyIsEnumerable") || (k =? "toLocaleString") ||
          (k =? "toString") || (k =? "valueOf") ||
          (k =? "__defineGetter__") || (k =? "__defineSetter__") ||
          (k =? "__lookupGetter__") || (k =? "__lookupSetter__")
  then Some (native k)
  else None.

(** The value of [o[k]] for an object literal of string values. *)
Inductive lookup_result : Type :=
| Own (v : string)            (* an own property: the string written *)
| Inherited (shown : string)  (* a member of Object.prototype *)
| Undefined.

Definition get (l : list (string * string)) (k : string) : lookup_result :=
  match own l k with
  | Some v => Own v
  | None =>
      match object_prototype k with
      | Some shown => Inherited shown
      | None => Undefined
      end
  end.

End JS.

(* ===================================================================== *)
(** ** Buffers *)
(* ===================================================================== *)

Module Buffer.

Definition t : Type := list byte.

Definition hex_digit (n : N) : ascii :=
  if (n <? 10)%N then ascii_of_N (48 + n) else ascii_of_N (87 + n).

Definition hex_of_byte (b : byte) : string :=
  let n := Byte.to_N b in
  String (hex_digit (n / 16)) (String (hex_digit (n mod 16)) EmptyString).

(** [buf.toString('hex')]: two lower-case hex digits per byte. *)
Fixpoint toString_hex (buf : t) : string :=
  match buf with
  | [] => EmptyString
  | b :: buf' => hex_of_byte b ++ toString_hex buf'
  end.

(** [buf.subarray(0, n)] *)
Definition subarray0 (n : nat) (buf : t) : t := firstn n buf.

End Buffer.

(* ===================================================================== *)
(** ** Thrown values, results and the effect monad *)
(* ===================================================================== *)

(** An object thrown by a collaborator (the URL validator, the S3 client,
    [fetch], axios), seen through the properties the code reads from it. *)
Record JsError : Type := mkJsError {
  instanceofError : bool;            (* error instanceof Error *)
  name : option string;              (* error.name *)
  message : option string;           (* error.message *)
  httpStatusCode : option Z;         (* error.$metadata.httpStatusCode *)
  isAxiosError : bool;               (* axios.isAxiosError(error) *)
  response_status : option Z;        (* error.response.status, when error.response is set *)
  code : option string               (* error.code *)
}.

(** A thrown value is either of the component's own error class [T]
    ([error instanceof T]) or some other object. *)
Inductive thrown (T : Type) : Type :=
| Typed (e : T)
| Untyped (e : JsError).
Arguments Typed {T} e.
Arguments Untyped {T} e.

Inductive result (E A : Type) : Type :=
| Ok (a : A)
| Throw (e : E).
Arguments Ok {E A} a.
Arguments Throw {E A} e.

(** The text a template literal gives for a value that may be
    [undefined]. *)
Definition render (o : option string) : string :=
  match o with Some s => s | None => "undefined" end.

(** The text a template literal gives for an integer. *)
Definition render_int (z : Z) : string :=
  DecimalString.NilZero.string_of_int (Z.to_int z).

(** The error of a property read on [null]. *)
Definition TypeError_null (prop : string) : JsError :=
  mkJsError true (Some "TypeError")
    (Some ("Cannot read properties of null (reading '" ++ prop ++ "')"))
    None false None None.

(** State [S], thrown values [E]: a statement either completes with a
    value or throws, and in both cases leaves a state behind.  A [catch]
    block starts in the state the [try] block left: nothing is undone. *)
Definition M (S E A : Type) : Type := S -> S * result E A.

Definition ret {S E A} (a : A) : M S E A := fun s => (s, Ok a).

Definition throw {S E A} (e : E) : M S E A := fun s => (s, Throw e).

Definition bind {S E A B} (m : M S E A) (k : A -> M S E B) : M S E B :=
  fun s => match m s with
           | (s', Ok a) => k a s'
           | (s', Throw e) => (s', Throw e)
           end.

Definition try_catch {S E A} (m : M S E A) (h : E -> M S E A) : M S E A :=
  fun s => match m s with
           | (s', Ok a) => (s', Ok a)
           | (s', Throw e) => h e s'
           end.

Definition lift {S E A} (r : result E A) : M S E A := fun s => (s, r).

Definition gets {S E A} (f : S -> A) : M S E A := fun s => (s, Ok (f s)).

Definition modify {S E} (f : S -> S) : M S E unit := fun s => (f s, Ok tt).

Declare Scope js_scope.
Delimit Scope js_scope with js.
Notation "x <- m ;; k" := (bind m (fun x => k))
  (at level 61, m at next level, right associativity) : js_scope.
Notation "m ;; k" := (bind m (fun _ => k))
  (at level 61, right associativity) : js_scope.
(** A header mapping ([Record<string, string>]), given by the list of its
    [Object.entries]. *)
Definition Headers : Type := list (string * string).

(** [o[k] = v] on an object under construction: an existing property
    keeps its place. *)
Fixpoint set (o : list (string * string)) (k v : string) : list (string * string) :=
  match o with
  | [] => [(k, v)]
  | (k', v') :: o' => if k' =? k then (k, v) :: o' else (k', v') :: set o' k v
  end.

(* ===================================================================== *)
(** ** OriginFetcher (origin-fetcher.ts) *)
(* ===================================================================== *)

Module OriginFetcher.
Local Open Scope js_scope.

(** Modelled from the spec: the class [ImageProcessingError] (./types) is
    not among the sources.  Section 3 describes an error descriptor of a
    status code, a symbolic kind and a message; the constructor takes them
    in this order at every call site. *)
Record ImageProcessingError : Type := mkError {
  statusCode : Z;
  errorType : string;
  errMessage : string
}.

Definition Thrown : Type := thrown ImageProcessingError.

(** [error.message], [error.name === 'AbortError'] and
    [error instanceof Error] on a thrown value. *)
Definition message_of (e : Thrown) : option string :=
  match e with
  | Typed e => Some (errMessage e)
  | Untyped o => message o
  end.

Definition is_AbortError (e : Thrown) : bool :=
  match e with
  | Typed _ => false
  | Untyped o => match name o with Some n => n =? "AbortError" | None => false end
  end.

Definition instanceof_Error (e : Thrown) : bool :=
  match e with
  | Typed _ => true
  | Untyped o => instanceofError o
  end.

(** *** Collaborators and the outside world *)

(** What [S3ErrorHandler.mapError] returns when it knows the error. *)
Record ErrorMapping : Type := mkMapping {
  map_statusCode : Z;
  map_errorType : string;
  map_message : string
}.

(** The response of [GetObjectCommand]; a body is given by what reading
    it to the end yields. *)
Record GetObjectOutput : Type := mkGetObjectOutput {
  Body : option (result JsError Buffer.t);
  ContentType : option string
}.

(** The response of [fetch]. *)
Record Response : Type := mkResponse {
  ok : bool;
  status : Z;
  statusText : string;
  content_type : option string;           (* headers.get('content-type') *)
  arrayBuffer : result JsError Buffer.t   (* await response.arrayBuffer() *)
}.

(** The helper classes of the repository that are not among the sources,
    the platform's URL parser and the two network clients.  Each client
    is an oracle: what it answers to a request, and how long that takes. *)
Record Env : Type := mkEnv {
  isS3Url : string -> bool;                                  (* S3UrlHelper.isS3Url *)
  parseS3Url : string -> result JsError (string * string);   (* S3UrlHelper.parseS3Url: bucket, key *)
  mapHeaderToS3Property : string -> string;                  (* S3UrlHelper.mapHeaderToS3Property *)
  validate : string -> option JsError;                       (* UrlValidator.validate: what it throws *)
  mapError : JsError -> option ErrorMapping;                 (* S3ErrorHandler.mapError *)
  parseURL : string -> option (string * string * string);    (* new URL(url): protocol, host, pathname *)
  s3_send : list (string * string) -> result JsError GetObjectOutput;
  http_fetch : string -> Headers -> result JsError Response;
  latency : string -> Z
}.

Record LogRecord : Type := mkLog {
  log_requestId : string;
  log_component : string;
  log_operation : string;
  log_originType : string;
  log_url : string;
  log_contentType : option string;
  log_sizeBytes : nat;
  log_fetchDurationMs : Z
}.

Inductive Event : Type :=
| S3Get (commandInput : list (string * string))
| HttpGet (url : string) (headers : Headers)
| Console (line : string)
| Log (record : LogRecord).

(** The world a call runs in: the clock read by [Date.now()] and what the
    call has done so far, oldest first. *)
Record World : Type := mkWorld {
  clock : Z;
  events : list Event
}.

Definition emit (e : Event) (w : World) : World :=
  mkWorld (clock w) (events w ++ [e]).

Definition advance (d : Z) (w : World) : World :=
  mkWorld (clock w + d) (events w).

Definition Date_now : M World Thrown Z := gets clock.

Definition is_network (e : Event) : bool :=
  match e with
  | S3Get _ | HttpGet _ _ => true
  | _ => false
  end.

(** *** Signature detection *)

Definition tooSmall : ImageProcessingError :=
  mkError 415 "InvalidImage" "File too small to be a valid image".

(** The object literal [magicToFormat], in the order it is written. *)
Definition magicToFormat : list (string * string) :=
  [ ("FFD8FF", "jpeg");
    ("89504E47", "png");
    ("47494638", "gif");
    ("52494646", "webp");
    ("49492A00", "tiff");
    ("4D4D002A", "tiff") ].

(** [buffer.subarray(0, 4).toString('hex').toUpperCase()] *)
Definition fileHeader (buffer : Buffer.t) : string :=
  JS.toUpperCase (Buffer.toString_hex (Buffer.subarray0 4 buffer)).

(** The loop over a list of entries: the first entry whose key is a
    prefix of the header sets [detectedFormat] and breaks. *)
Fixpoint scan (header : string) (l : list (string * string)) : option string :=
  match l with
  | [] => None
  | (magic, format) :: l' =>
      if JS.startsWith header magic then Some format else scan header l'
  end.

Definition detect (buffer : Buffer.t) : option string :=
  scan (fileHeader buffer) (JS.entries magicToFormat).

Definition detectedFormat (buffer : Buffer.t) : result Thrown (option string) :=
  if (List.length buffer <? 4)%nat then Throw (Typed tooSmall)
  else Ok (detect buffer).

Definition validTypes : list string :=
  [ "image/jpeg"; "image/jpg"; "image/png"; "image/webp";
    "image/gif"; "image/tiff"; "image/avif"; "image/heif" ].

Definition isValidImageContentType (contentType : string) : bool :=
  existsb (fun type => JS.includes (JS.toLowerCase contentType) type) validTypes.

(** The object literal [contentTypeToFormat]. *)
Definition contentTypeToFormat : list (string * string) :=
  [ ("image/webp", "webp");
    ("image/png", "png");
    ("image/jpeg", "jpeg");
    ("image/jpg", "jpeg");
    ("image/tiff", "tiff");
    ("image/gif", "gif") ].

Definition corrupted (expectedFormat : string) : ImageProcessingError :=
  mkError 415 "InvalidImage" ("Invalid or corrupted " ++ expectedFormat ++ " file").

Definition validateImageMagicNumbers
    (buffer : Buffer.t) (contentType : option string) : result Thrown unit :=
  if (List.length buffer <? 4)%nat then Throw (Typed tooSmall)
  else
    let detectedFormat := detect buffer in
    match contentType with
    | Some ct =>
        if JS.truthy contentType then
          match JS.get contentTypeToFormat (JS.toLowerCase ct) with
          | JS.Own expectedFormat =>
              if JS.truthy (Some expectedFormat) then
                if negb (JS.truthy detectedFormat)
                then Throw (Typed (corrupted expectedFormat))
                else Ok tt
              else Ok tt
          | JS.Inherited shown =>
              if negb (JS.truthy detectedFormat)
              then Throw (Typed (corrupted shown))
              else Ok tt
          | JS.Undefined => Ok tt
          end
        else Ok tt
    | None => Ok tt
    end.

(** *** Error mapping *)

Definition handleFetchError (env : Env) (error : Thrown) (url : string)
    : ImageProcessingError :=
  match error with
  | Typed e => e
  | Untyped o =>
      match mapError env o with
      | Some mappedError =>
          let errorType :=
            if map_errorType mappedError =? "KeyNotFound" then "ImageNotFound"
            else map_errorType mappedError in
          mkError (map_statusCode mappedError) errorType (map_message mappedError)
      | None =>
          mkError 500 "FetchError"
            ("Failed to fetch image from " ++ url ++ ": " ++ render (message o))
      end
  end.

(** *** The two fetch paths *)

Record Fetched : Type := mkFetched {
  buffer : Buffer.t;
  contentType : option string
}.

(** The [forEach] over [Object.entries(headers)]: a header whose
    lower-cased name starts with [x-amz-] or [if-] becomes a property of
    the command input. *)
Fixpoint forwardHeaders (env : Env) (commandInput : list (string * string))
    (headers : Headers) : list (string * string) :=
  match headers with
  | [] => commandInput
  | (name, value) :: rest =>
      let lowerName := JS.toLowerCase name in
      let commandInput' :=
        if JS.startsWith lowerName "x-amz-" || JS.startsWith lowerName "if-"
        then set commandInput (mapHeaderToS3Property env lowerName) value
        else commandInput in
      forwardHeaders env commandInput' rest
  end.

(** [await this.s3Client.send(command)] *)
Definition send (env : Env) (url : string) (commandInput : list (string * string))
    : M World Thrown GetObjectOutput :=
  modify (emit (S3Get commandInput)) ;;
  modify (advance (latency env url)) ;;
  match s3_send env commandInput with
  | Ok response => ret response
  | Throw o => throw (Untyped o)
  end.

Definition fetchFromS3 (env : Env) (url : string) (headers : option Headers)
    : M World Thrown Fetched :=
  try_catch
    (bk <- lift (match parseS3Url env url with
                 | Ok bk => Ok bk
                 | Throw o => Throw (Untyped o)
                 end) ;;
     let '(bucket, key) := bk in
     modify (emit (Console ("Attempting to fetch from bucket: " ++ bucket
                            ++ " and key: " ++ key))) ;;
     let commandInput := [("Bucket", bucket); ("Key", key)] in
     let commandInput :=
       match headers with
       | Some h => forwardHeaders env commandInput h
       | None => commandInput
       end in
     response <- send env url commandInput ;;
     match Body response with
     | None => throw (Typed (mkError 404 "ImageNotFound" "Image not found in S3"))
     | Some (Throw o) => throw (Untyped o)
     | Some (Ok buffer) => ret (mkFetched buffer (ContentType response))
     end)
    (fun error =>
       if instanceof_Error error &&
          match message_of error with
          | Some m => m =? "Invalid S3 URL format"
          | None => false
          end
       then throw (Typed (mkError 400 "InvalidS3Url" (render (message_of error))))
       else throw (Typed (handleFetchError env error url))).

(** The object literal [{ 'User-Agent': ..., ...headers }]: the
    properties are created in this order, a header named [User-Agent]
    taking the place of the fixed one; the request gets the object, that
    is its [Object.entries]. *)
Definition fetchHeaders (headers : option Headers) : Headers :=
  JS.entries
    (fold_left (fun o kv => set o (fst kv) (snd kv))
               (match headers with Some h => h | None => [] end)
               [("User-Agent", "DIT-v8-ImageProcessor/1.0")]).

(** [await fetch(url, ...)]; the 30000 ms timer aborts the call, which
    then rejects with an error named [AbortError]. *)
Definition fetch (env : Env) (url : string) (headers : Headers)
    : M World Thrown Response :=
  modify (emit (HttpGet url headers)) ;;
  modify (advance (latency env url)) ;;
  match http_fetch env url headers with
  | Ok response => ret response
  | Throw o => throw (Untyped o)
  end.

(** [contentType.toLowerCase().trim()], which throws on [null]. *)
Definition lower_trim (contentType : option string) : result Thrown string :=
  match contentType with
  | Some ct => Ok (JS.trim (JS.toLowerCase ct))
  | None => Throw (Untyped (TypeError_null "toLowerCase"))
  end.

Definition fetchFromHttp (env : Env) (url : string) (headers : option Headers)
    : M World Thrown Fetched :=
  try_catch
    (response <- fetch env url (fetchHeaders headers) ;;
     (if negb (ok response)
      then throw (Typed (mkError (status response) "HttpFetchError"
                    ("Failed to fetch image: " ++ render_int (status response)
                     ++ " " ++ statusText response)))
      else ret tt) ;;
     let contentType := content_type response in
     (match contentType with
      | Some ct =>
          if JS.truthy contentType &&
             negb (JS.trim (JS.toLowerCase ct) =? "binary/octet-stream") &&
             negb (isValidImageContentType ct)
          then throw (Typed (mkError 415 "InvalidContentType"
                               ("Invalid content type: " ++ ct)))
          else ret tt
      | None => ret tt
      end) ;;
     buffer <- lift (match arrayBuffer response with
                     | Ok b => Ok b
                     | Throw o => Throw (Untyped o)
                     end) ;;
     detectedFormat <- lift (detectedFormat buffer) ;;
     lowered <- lift (lower_trim contentType) ;;
     (if (lowered =? "binary/octet-stream") && negb (JS.truthy detectedFormat)
      then throw (Typed (mkError 415 "InvalidImage"
                    ("Invalid or corrupted Content-Type " ++ render contentType
                     ++ " file")))
      else ret tt) ;;
     ret (mkFetched buffer (if JS.truthy contentType then contentType else None)))
    (fun error =>
       if is_AbortError error
       then throw (Typed (mkError 504 "RequestTimeout" "Origin Request timeout"))
       else throw (Typed (handleFetchError env error url))).

(** *** fetchImage *)

(** [url.split('?')[0]] *)
Definition before_query (url : string) : string :=
  hd EmptyString (JS.split "?" url).

Definition sanitizeUrl (env : Env) (url : string) : string :=
  match parseURL env url with
  | Some (protocol, host, pathname) => protocol ++ "//" ++ host ++ pathname
  | None => before_query url
  end.

Record Metadata : Type := mkMetadata {
  size : nat;
  format : option string
}.

Record FetchResult : Type := mkFetchResult {
  result_buffer : Buffer.t;
  metadata : Metadata
}.

(** The first statement of [fetchImage]: the choice of the fetch path. *)
Definition fetchByOrigin (env : Env) (url : string) (headers : option Headers)
    : M World Thrown Fetched :=
  if isS3Url env url then fetchFromS3 env url headers
  else if JS.startsWith url "http://" || JS.startsWith url "https://" then
    match validate env url with
    | Some error =>
        throw (Typed (mkError 400 "InvalidUrl"
                 (if instanceofError error then render (message error)
                  else "Invalid URL")))
    | None => fetchFromHttp env url headers
    end
  else throw (Typed (mkError 400 "InvalidUrl" "Unsupported URL protocol")).

(** [detectedFormat ? detectedFormat : result.contentType?.replace('image/', '')] *)
Definition finalFormat (detectedFormat contentType : option string) : option string :=
  if JS.truthy detectedFormat then detectedFormat
  else match contentType with
       | Some ct => Some (JS.replace ct "image/" "")
       | None => None
       end.

Definition fetchImage (env : Env) (url : string) (headers : option Headers)
    (requestId : option string) : M World Thrown FetchResult :=
  startTime <- Date_now ;;
  result <- fetchByOrigin env url headers ;;
  lift (validateImageMagicNumbers (buffer result) (contentType result)) ;;
  now <- Date_now ;;
  let fetchDurationMs := (now - startTime)%Z in
  modify (emit (Log (mkLog
    (if JS.truthy requestId then render requestId else "unknown")
    "OriginFetcher"
    "image_fetched"
    (if isS3Url env url then "s3" else "http")
    (sanitizeUrl env url)
    (contentType result)
    (List.length (buffer result))
    fetchDurationMs))) ;;
  detectedFormat <- lift (detectedFormat (buffer result)) ;;
  let format := finalFormat detectedFormat (contentType result) in
  ret (mkFetchResult (buffer result)
                     (mkMetadata (List.length (buffer result)) format)).

End OriginFetcher.

(* ===================================================================== *)
(** ** ConnectionManager (connection-manager.ts) *)
(* ===================================================================== *)

Module ConnectionManager.
Local Open Scope js_scope.

(** Modelled from the spec: the class [ConnectionError]
    (../errors/connection.error) is not among the sources.  Section 3
    describes an error descriptor of a status code, a symbolic kind and a
    message; every call site passes a title, the message, the status code
    and the kind, in this order. *)
Record ConnectionError : Type := mkError {
  title : string;
  errMessage : string;
  statusCode : Z;
  errorType : string
}.

Definition Thrown : Type := thrown ConnectionError.

(** Modelled from the spec: the type [ImageProcessingRequest]
    (types/image-processing-request) is not among the sources.  Section 3:
    an optional mapping of forwarded request headers, a mutable
    content-type slot and an optional mutable timing record.  Only the
    properties the code touches are kept. *)
Record RequestResolution : Type := mkRequestResolution {
  preflightValidationMs : option Z
}.

Record Timings : Type := mkTimings {
  requestResolution : option RequestResolution
}.

Record ImageProcessingRequest : Type := mkRequest {
  clientHeaders : option Headers;
  sourceImageContentType : option string;
  timings : option Timings
}.

(** The helper classes that are not among the sources and the two
    clients; a probe answers with the declared content type. *)
Record Env : Type := mkEnv {
  isS3Url : string -> bool;                                  (* S3UrlHelper.isS3Url *)
  parseS3Url : string -> result JsError (string * string);   (* S3UrlHelper.parseS3Url *)
  mapHeaderToS3Property : string -> string;                  (* S3UrlHelper.mapHeaderToS3Property *)
  validate : string -> option JsError;                       (* UrlValidator.validate: what it throws *)
  s3_head : list (string * string) -> result JsError (option string);
  axios_head : string -> Headers -> result JsError (option string);
  latency : string -> Z
}.

Inductive Event : Type :=
| S3Head (commandInput : list (string * string))
| HttpHead (url : string) (headers : Headers).

(** The caller's request object is shared with the probe, which writes
    to it: it is part of the state. *)
Record State : Type := mkState {
  clock : Z;
  request : ImageProcessingRequest;
  events : list Event
}.

Definition emit (e : Event) (s : State) : State :=
  mkState (clock s) (request s) (events s ++ [e]).

Definition advance (d : Z) (s : State) : State :=
  mkState (clock s + d) (request s) (events s).

Definition Date_now : M State Thrown Z := gets clock.

(** [imageRequest.sourceImageContentType = contentType] *)
Definition store_contentType (contentType : option string) (s : State) : State :=
  mkState (clock s)
          (mkRequest (clientHeaders (request s)) contentType (timings (request s)))
          (events s).

(** [imageRequest.timings.requestResolution.preflightValidationMs = ms] *)
Definition store_preflight (ms : Z) (s : State) : State :=
  mkState (clock s)
          (mkRequest (clientHeaders (request s))
                     (sourceImageContentType (request s))
                     (Some (mkTimings (Some (mkRequestResolution (Some ms))))))
          (events s).

(** [contentType?.split(';')[0].trim().startsWith(prefix)]: [undefined]
    when the content type is. *)
Definition mediaType (contentType : string) : string :=
  JS.trim (hd EmptyString (JS.split ";" contentType)).

Definition startsWith_opt (contentType : option string) (prefix : string) : bool :=
  match contentType with
  | Some ct => JS.startsWith (mediaType ct) prefix
  | None => false
  end.

Definition invalidContentType (contentType : option string) : ConnectionError :=
  mkError "Invalid content type"
          ("Origin does not serve image content. Content-Type: " ++ render contentType)
          400 "INVALID_FORMAT".

Definition validateContentType (contentType : option string) : result Thrown unit :=
  if negb (startsWith_opt contentType "image/") &&
     negb (startsWith_opt contentType "binary/octet-stream")
  then Throw (Typed (invalidContentType contentType))
  else Ok tt.

Definition message_of (e : Thrown) : option string :=
  match e with
  | Typed e => Some (errMessage e)
  | Untyped o => message o
  end.

Definition instanceof_Error (e : Thrown) : bool :=
  match e with
  | Typed _ => true
  | Untyped o => instanceofError o
  end.

Fixpoint forwardHeaders (env : Env) (commandInput : list (string * string))
    (headers : Headers) : list (string * string) :=
  match headers with
  | [] => commandInput
  | (name, value) :: rest =>
      let lowerName := JS.toLowerCase name in
      let commandInput' :=
        if JS.startsWith lowerName "x-amz-" || JS.startsWith lowerName "if-"
        then set commandInput (mapHeaderToS3Property env lowerName) value
        else commandInput in
      forwardHeaders env commandInput' rest
  end.

(** [await this.s3Client.send(command)] with a [HeadObjectCommand] *)
Definition send (env : Env) (url : string) (commandInput : list (string * string))
    : M State Thrown (option string) :=
  modify (emit (S3Head commandInput)) ;;
  modify (advance (latency env url)) ;;
  match s3_head env commandInput with
  | Ok contentType => ret contentType
  | Throw o => throw (Untyped o)
  end.

(** The [catch] block of [validateS3Origin]. *)
Definition mapS3Error (url : string) (error : Thrown) : ConnectionError :=
  match error with
  | Typed e => e
  | Untyped o =>
      let statusCode := httpStatusCode o in
      if instanceofError o &&
         match message o with
         | Some m => m =? "Invalid S3 URL format"
         | None => false
         end
      then mkError "Invalid S3 URL format" ("Invalid S3 URL format: " ++ url)
                   400 "INVALID_URL"
      else if match statusCode with Some c => (c =? 404)%Z | None => false end
      then mkError "Resource not found" ("S3 object not found: " ++ url)
                   404 "RESOURCE_NOT_FOUND"
      else if match statusCode with Some c => (c =? 403)%Z | None => false end
      then mkError "Access denied" ("Access denied to S3 resource: " ++ url)
                   403 "ACCESS_DENIED"
      else mkError "S3 validation failed"
                   ("S3 validation failed for " ++ url ++ ": " ++ render (message o))
                   502 "BAD_GATEWAY"
  end.

Definition validateS3Origin (env : Env) (url : string) : M State Thrown unit :=
  try_catch
    (bk <- lift (match parseS3Url env url with
                 | Ok bk => Ok bk
                 | Throw o => Throw (Untyped o)
                 end) ;;
     let '(bucket, key) := bk in
     let commandInput := [("Bucket", bucket); ("Key", key)] in
     imageRequest <- gets request ;;
     let commandInput :=
       match clientHeaders imageRequest with
       | Some h => forwardHeaders env commandInput h
       | None => commandInput
       end in
     contentType <- send env url commandInput ;;
     lift (validateContentType contentType) ;;
     modify (store_contentType contentType))
    (fun error => throw (Typed (mapS3Error url error))).

(** [await axios.head(url, ...)]: 5000 ms deadline, no redirect
    followed. *)
Definition head (env : Env) (url : string) (headers : Headers)
    : M State Thrown (option string) :=
  modify (emit (HttpHead url headers)) ;;
  modify (advance (latency env url)) ;;
  match axios_head env url headers with
  | Ok contentType => ret contentType
  | Throw o => throw (Untyped o)
  end.

Definition code_is (o : JsError) (c : string) : bool :=
  match code o with Some c' => c' =? c | None => false end.

(** The [catch] block of [validateHttpOrigin]. *)
Definition mapHttpError (url : string) (error : Thrown) : ConnectionError :=
  let fallback :=
    mkError "Origin validation failed"
            ("Origin validation failed for " ++ url ++ ": " ++
             (if instanceof_Error error then render (message_of error)
              else "Unknown error"))
            502 "BAD_GATEWAY" in
  match error with
  | Typed e => e
  | Untyped o =>
      if isAxiosError o then
        let network :=
          if code_is o "ECONNABORTED"
          then mkError "Origin timeout"
                       ("Origin validation timeout after 5000ms for URL: " ++ url)
                       408 "REQUEST_TIMEOUT"
          else if code_is o "ENOTFOUND"
          then mkError "Unable to resolve host"
                       ("Unable to resolve host for " ++ url)
                       404 "HOST_NOT_FOUND"
          else if code_is o "CERT_UNTRUSTED" ||
                  code_is o "UNABLE_TO_VERIFY_LEAF_SIGNATURE"
          then mkError "TLS certificate error"
                       ("TLS certificate validation failed for " ++ url ++ ": "
                        ++ render (message o))
                       403 "ACCESS_DENIED"
          else fallback in
        match response_status o with
        | Some status =>
            if (status =? 404)%Z
            then mkError "Resource not found" ("Resource not found at " ++ url)
                         404 "RESOURCE_NOT_FOUND"
            else if (status =? 403)%Z || (status =? 401)%Z
            then mkError "Access denied" ("Access denied for " ++ url)
                         status "ACCESS_DENIED"
            else if (status >=? 500)%Z
            then mkError "Origin server error"
                         ("Origin server error (" ++ render_int status ++ ") for " ++ url)
                         502 "BAD_GATEWAY"
            else network
        | None => network
        end
      else fallback
  end.

Definition validateHttpOrigin (env : Env) (url : string) : M State Thrown unit :=
  try_catch
    (imageRequest <- gets request ;;
     let headers :=
       match clientHeaders imageRequest with Some h => h | None => [] end in
     contentType <- head env url headers ;;
     lift (validateContentType contentType) ;;
     modify (store_contentType contentType))
    (fun error => throw (Typed (mapHttpError url error))).

Definition validateOriginHeaders (env : Env) (url : string) : M State Thrown unit :=
  if isS3Url env url then validateS3Origin env url
  else validateHttpOrigin env url.

Definition urlValidationFailed (error : JsError) : ConnectionError :=
  let message := if instanceofError error then render (message error)
                 else "Invalid URL" in
  let errorCode := if JS.includes message "protocol" then "UNSUPPORTED_PROTOCOL"
                   else "INVALID_URL" in
  mkError "URL validation failed" message 400 errorCode.

(** [imageRequest.timings?.requestResolution] is an object. *)
Definition has_timing_slot (r : ImageProcessingRequest) : bool :=
  match timings r with
  | Some t => match requestResolution t with Some _ => true | None => false end
  | None => false
  end.

Definition validateOriginUrl (env : Env) (url : string) : M State Thrown unit :=
  preflightStart <- Date_now ;;
  (match validate env url with
   | Some error => throw (Typed (urlValidationFailed error))
   | None => ret tt
   end) ;;
  validateOriginHeaders env url ;;
  imageRequest <- gets request ;;
  if has_timing_slot imageRequest then
    now <- Date_now ;;
    modify (store_preflight (now - preflightStart))
  else ret tt.

End ConnectionManager.

(* ===================================================================== *)
(** ** Facts about the primitives *)
(* ===================================================================== *)

Module JSFacts.
Import JS.

Lemma startsWith_app (p t : string) : startsWith (p ++ t) p = true.
Proof.
  induction p as [|c p IH]; simpl; [reflexivity|].
  now rewrite Ascii.eqb_refl, IH.
Qed.

(** [s.startsWith(p)] holds exactly when [s] is [p] followed by some
    rest. *)
Lemma startsWith_iff (s p : string) :
  startsWith s p = true <-> exists t, s = p ++ t.
Proof.
  split.
  - revert s; induction p as [|c p IH]; intros s H; simpl in *.
    + now exists s.
    + destruct s as [|d s]; [discriminate|].
      apply andb_true_iff in H as [Hc Hp].
      apply Ascii.eqb_eq in Hc; subst d.
      destruct (IH _ Hp) as [t ->]. now exists t.
  - intros [t ->]. apply startsWith_app.
Qed.

(** The library's [prefix] test is the same test. *)
Lemma startsWith_prefix (s p : string) : startsWith s p = String.prefix p s.
Proof.
  revert s; induction p as [|c p IH]; intros s; [now destruct s|].
  destruct s as [|d s]; [reflexivity|]. simpl.
  destruct (ascii_dec c d) as [->|Hne].
  - now rewrite Ascii.eqb_refl, IH.
  - destruct (Ascii.eqb_spec d c) as [->|_]; [contradiction|reflexivity].
Qed.

(** [s.includes(sub)] holds exactly when [sub] occurs somewhere in [s]. *)
Lemma includes_iff (s sub : string) :
  includes s sub = true <-> exists a b, s = a ++ sub ++ b.
Proof.
  split.
  - induction s as [|c s IH]; simpl; intros H.
    + rewrite orb_false_r in H. apply startsWith_iff in H as [t ->].
      now exists EmptyString, t.
    + apply orb_true_iff in H as [H|H].
      * apply (startsWith_iff (String c s)) in H as [t ->].
        now exists EmptyString, t.
      * destruct (IH H) as (a & b & ->). now exists (String c a), b.
  - intros (a & b & ->). induction a as [|c a IH].
    + change (EmptyString ++ sub ++ b) with (sub ++ b).
      pose proof (startsWith_app sub b) as H.
      destruct (sub ++ b); simpl; now rewrite H.
    + simpl. rewrite IH. apply orb_true_r.
Qed.

(** What is left of [s] when everything from the first [sep] on is
    removed. *)
Fixpoint before (sep : ascii) (s : string) : string :=
  match s with
  | EmptyString => EmptyString
  | String c s' => if Ascii.eqb c sep then EmptyString else String c (before sep s')
  end.

Lemma split_hd (sep : ascii) (s : string) :
  hd EmptyString (split sep s) = before sep s.
Proof.
  induction s as [|c s IH]; simpl; [reflexivity|].
  destruct (Ascii.eqb c sep); [reflexivity|].
  destruct (split sep s) as [|piece rest] eqn:E; simpl in *.
  - now rewrite <- IH.
  - now rewrite IH.
Qed.

Lemma split_not_nil (sep : ascii) (s : string) : split sep s <> [].
Proof.
  destruct s as [|c s]; simpl; [discriminate|].
  destruct (Ascii.eqb c sep); [discriminate|].
  destruct (split sep s); discriminate.
Qed.

(** [before] removes a suffix that starts at a separator, and what it
    keeps holds no separator. *)
Lemma before_spec (sep : ascii) (s : string) :
  (before sep s = s \/ exists rest, s = before sep s ++ String sep rest) /\
  includes (before sep s) (String sep EmptyString) = false.
Proof.
  induction s as [|c s [IH1 IH2]]; simpl.
  - split; [now left|reflexivity].
  - destruct (Ascii.eqb_spec c sep) as [->|Hne]; simpl.
    + split; [right; now exists s|reflexivity].
    + split.
      * destruct IH1 as [E|[rest E]].
        -- left. now rewrite E.
        -- right. exists rest. now rewrite E at 1.
      * rewrite IH2.
        destruct (Ascii.eqb_spec c sep); [contradiction|reflexivity].
Qed.

Lemma replace_absent (s pat rep : string) :
  includes s pat = false -> replace s pat rep = s.
Proof.
  destruct pat as [|d p'].
  - destruct s; discriminate.
  - induction s as [|c s IH]; simpl; intros H; [reflexivity|].
    apply orb_false_iff in H as [H1 H2].
    rewrite H1. now rewrite IH.
Qed.

Lemma drop_app (p t : string) : drop (String.length p) (p ++ t) = t.
Proof. induction p as [|c p IH]; simpl; [now destruct t|exact IH]. Qed.

Lemma app_empty (a b : string) : a ++ b = EmptyString -> b = EmptyString.
Proof. destruct a; [trivial|discriminate]. Qed.

(** [s.replace(pat, '')] takes out the first occurrence of [pat]: [s] is
    cut as [a ++ pat ++ b] with [a] as short as can be, and the result is
    [a ++ b]; a string without [pat] comes back as it is. *)
Lemma replace_first (s pat : string) :
  pat <> EmptyString ->
  (exists a b,
      s = a ++ pat ++ b /\
      replace s pat EmptyString = a ++ b /\
      forall a' b', s = a' ++ pat ++ b' -> String.length a <= String.length a') \/
  ((~ exists a b, s = a ++ pat ++ b) /\ replace s pat EmptyString = s).
Proof.
  intros Hpat. induction s as [|c s IH].
  - right. split.
    + intros (a & b & E). symmetry in E.
      apply app_empty in E. apply Hpat.
      destruct pat; [reflexivity|discriminate].
    + destruct pat; [contradiction|reflexivity].
  - destruct (startsWith (String c s) pat) eqn:Hstart.
    + left. destruct (proj1 (startsWith_iff _ _) Hstart) as [t E].
      exists EmptyString, t. repeat split.
      * exact E.
      * cbn [replace]. rewrite Hstart, E.
        change (EmptyString ++ t) with t.
        change (EmptyString ++ drop (String.length pat) (pat ++ t))
          with (drop (String.length pat) (pat ++ t)).
        apply drop_app.
      * intros a' b' _. apply Nat.le_0_l.
    + assert (Hstep : replace (String c s) pat EmptyString =
                      String c (replace s pat EmptyString)).
      { cbn [replace]. now rewrite Hstart. }
      assert (Hhead : forall b', String c s <> pat ++ b').
      { intros b' E.
        assert (H : startsWith (String c s) pat = true)
          by (apply startsWith_iff; now exists b').
        congruence. }
      destruct IH as [(a & b & E & Hr & Hmin)|[Hnone Hr]].
      * left. exists (String c a), b. repeat split.
        -- now rewrite E.
        -- now rewrite Hstep, Hr.
        -- intros a' b' E'. destruct a' as [|c' a'].
           ++ exfalso. now apply (Hhead b').
           ++ injection E' as _ E'. simpl. apply le_n_S. now apply (Hmin a' b').
      * right. split; [|now rewrite Hstep, Hr].
        intros (a' & b' & E'). destruct a' as [|c' a'].
        -- now apply (Hhead b').
        -- injection E' as _ E'. apply Hnone. now exists a', b'.
Qed.

(** *** Lookups in [Object.entries] *)

Lemma own_app {V : Type} (l1 l2 : list (string * V)) (k : string) :
  own (l1 ++ l2) k = match own l1 k with Some v => Some v | None => own l2 k end.
Proof.
  induction l1 as [|[k0 v0] l1 IH]; simpl; [reflexivity|].
  now destruct (k0 =? k).
Qed.

Lemma own_Some_In {V : Type} (l : list (string * V)) (k : string) (v : V) :
  own l k = Some v -> In (k, v) l.
Proof.
  induction l as [|[k0 v0] l IH]; simpl; [discriminate|].
  destruct (String.eqb_spec k0 k) as [->|].
  - intros [= ->]. now left.
  - intros H. right. now apply IH.
Qed.

Lemma In_own {V : Type} (l : list (string * V)) (k : string) (v : V) :
  NoDup (map fst l) -> In (k, v) l -> own l k = Some v.
Proof.
  induction l as [|[k0 v0] l IH]; simpl; [contradiction|].
  intros Hnd [E|Hin]; inversion Hnd as [|? ? Hk Hl]; subst.
  - injection E as -> ->. now rewrite String.eqb_refl.
  - destruct (String.eqb_spec k0 k) as [->|]; [|now apply IH].
    exfalso. apply Hk. now apply (in_map fst _ (k, v)).
Qed.

Lemma own_filter {V : Type} (p : string -> bool) (l : list (string * V))
    (k : string) :
  own (filter (fun kv => p (fst kv)) l) k = if p k then own l k else None.
Proof.
  induction l as [|[k0 v0] l IH]; simpl; [now destruct (p k)|].
  destruct (p k0) eqn:Hp; simpl; rewrite IH;
    destruct (String.eqb_spec k0 k) as [<-|]; try reflexivity;
    now rewrite Hp.
Qed.

Lemma In_insert_index {V : Type} (i : N) (kv : string * V)
    (l : list (N * (string * V))) (x : N * (string * V)) :
  In x (insert_index i kv l) <-> x = (i, kv) \/ In x l.
Proof.
  induction l as [|[j kv'] l IH]; simpl.
  - intuition.
  - destruct (i <? j)%N; simpl; [intuition|].
    rewrite IH. intuition.
Qed.

Lemma In_index_entries {V : Type} (l : list (string * V)) (i : N)
    (k : string) (v : V) :
  In (i, (k, v)) (index_entries l) <-> In (k, v) l /\ array_index k = Some i.
Proof.
  induction l as [|[k0 v0] l IH]; simpl; [intuition|].
  destruct (array_index k0) as [i0|] eqn:E.
  - rewrite In_insert_index, IH. split.
    + intros [H|[H1 H2]]; [injection H as -> -> ->|]; auto.
    + intros [[H|H] Hi]; [injection H as -> ->|]; auto.
      left. congruence.
  - rewrite IH. split.
    + intros [H1 H2]. auto.
    + intros [[H|H] Hi]; [injection H as -> ->; congruence|auto].
Qed.

Lemma keys_insert_index {V : Type} (i : N) (kv : string * V)
    (l : list (N * (string * V))) (k : string) :
  In k (map fst (map snd (insert_index i kv l))) <->
  k = fst kv \/ In k (map fst (map snd l)).
Proof.
  induction l as [|[j kv'] l IH]; simpl.
  - intuition.
  - destruct (i <? j)%N; simpl; [intuition|].
    rewrite IH. intuition.
Qed.

Lemma NoDup_insert_index {V : Type} (i : N) (kv : string * V)
    (l : list (N * (string * V))) :
  NoDup (map fst (map snd l)) -> ~ In (fst kv) (map fst (map snd l)) ->
  NoDup (map fst (map snd (insert_index i kv l))).
Proof.
  induction l as [|[j kv'] l IH]; simpl; intros Hnd Hnin.
  - constructor; [intros []|constructor].
  - destruct (i <? j)%N; simpl.
    + now constructor.
    + inversion Hnd as [|? ? Hk Hl]; subst. constructor.
      * rewrite keys_insert_index. intros [E|H]; [|contradiction].
        apply Hnin. now left.
      * apply IH; [assumption|]. intros H. apply Hnin. now right.
Qed.

Lemma keys_index_entries {V : Type} (l : list (string * V)) (k : string) :
  In k (map fst (map snd (index_entries l))) -> In k (map fst l).
Proof.
  induction l as [|[k0 v0] l IH]; simpl; [trivial|].
  destruct (array_index k0).
  - rewrite keys_insert_index. intros [H|H]; [now left|right; now apply IH].
  - intros H. right. now apply IH.
Qed.

Lemma NoDup_index_entries {V : Type} (l : list (string * V)) :
  NoDup (map fst l) -> NoDup (map fst (map snd (index_entries l))).
Proof.
  induction l as [|[k0 v0] l IH]; simpl; intros Hnd; [constructor|].
  inversion Hnd as [|? ? Hk Hl]; subst.
  destruct (array_index k0); [|now apply IH].
  apply NoDup_insert_index; [now apply IH|].
  intros H. apply Hk. now apply keys_index_entries.
Qed.

(** An object whose keys are distinct holds under each key, in its
    [Object.entries], the value it was given. *)
Lemma own_entries {V : Type} (l : list (string * V)) (k : string) :
  NoDup (map fst l) -> own (entries l) k = own l k.
Proof.
  intros Hnd. unfold entries. rewrite own_app.
  change (fun kv : string * V => negb (is_index_key kv))
    with (fun kv : string * V =>
            (fun key => negb match array_index key with
                             | Some _ => true
                             | None => false
                             end) (fst kv)).
  rewrite own_filter.
  destruct (own (map snd (index_entries l)) k) as [v|] eqn:Hidx.
  - apply own_Some_In in Hidx. apply in_map_iff in Hidx as ([i [k' v']] & E & Hin).
    simpl in E. injection E as -> ->.
    apply In_index_entries in Hin as [Hin _].
    symmetry. now apply In_own.
  - destruct (array_index k) as [i|] eqn:Hk; [|reflexivity].
    cbn [negb]. destruct (own l k) as [v|] eqn:Hl; [|reflexivity].
    exfalso. apply own_Some_In in Hl.
    assert (Hin : In (k, v) (map snd (index_entries l))).
    { apply in_map_iff. exists (i, (k, v)). split; [reflexivity|].
      now apply In_index_entries. }
    apply In_own in Hin; [congruence|]. now apply NoDup_index_entries.
Qed.

End JSFacts.

(* ===================================================================== *)
(** ** Properties of OriginFetcher *)
(* ===================================================================== *)

Module FetcherProps.
Import OriginFetcher.
Import JSFacts.

(** *** The specification's tables and vocabulary *)

(** The signature registry as the specification lists it. *)
Definition registry : list (string * string) :=
  [ ("FFD8FF", "jpeg"); ("89504E47", "png"); ("47494638", "gif");
    ("52494646", "webp"); ("49492A00", "tiff"); ("4D4D002A", "tiff") ].

(** The content-type table of the cross-validation. *)
Definition contentTypeTable : list (string * string) :=
  [ ("image/webp", "webp"); ("image/png", "png"); ("image/jpeg", "jpeg");
    ("image/jpg", "jpeg"); ("image/tiff", "tiff"); ("image/gif", "gif") ].

(** First match wins: the format of the first registry entry whose
    prefix starts the header. *)
Definition first_match (l : list (string * string)) (header : string) : option string :=
  option_map snd (find (fun entry => String.prefix (fst entry) header) l).

(** The hex encoding, in capitals, of one byte. *)
Definition HEX (b : byte) : string := JS.toUpperCase (Buffer.hex_of_byte b).

Definition no_signature (buffer : Buffer.t) : Prop :=
  forall magic format, In (magic, format) registry ->
    ~ exists rest, fileHeader buffer = magic ++ rest.

Definition has_signature (buffer : Buffer.t) : Prop :=
  exists magic format rest,
    In (magic, format) registry /\ fileHeader buffer = magic ++ rest.

(** *** Detection *)

Lemma fileHeader_four (b1 b2 b3 b4 : byte) (rest : Buffer.t) :
  fileHeader (b1 :: b2 :: b3 :: b4 :: rest) = HEX b1 ++ HEX b2 ++ HEX b3 ++ HEX b4.
Proof. reflexivity. Qed.

(** [Object.entries] lists the two all-digit keys first. *)
Lemma entries_magicToFormat :
  JS.entries magicToFormat =
  [ ("47494638", "gif"); ("52494646", "webp"); ("FFD8FF", "jpeg");
    ("89504E47", "png"); ("49492A00", "tiff"); ("4D4D002A", "tiff") ].
Proof. reflexivity. Qed.

Ltac split_char :=
  match goal with
  | |- context [Ascii.eqb ?a ?c] =>
      is_var a; destruct (Ascii.eqb_spec a c) as [->|?]; cbn [andb]
  end.

(** No header starts with two of the prefixes, so the order of the scan
    does not show in its result. *)
Lemma scan_order (header : string) :
  scan header (JS.entries magicToFormat) = scan header magicToFormat.
Proof.
  rewrite entries_magicToFormat. unfold magicToFormat.
  destruct header as [|a header]; [reflexivity|].
  destruct header as [|b header].
  { cbn. repeat split_char; reflexivity. }
  cbn [scan JS.startsWith].
  repeat (split_char; cbn [Ascii.eqb Bool.eqb andb]); try reflexivity.
Qed.

Lemma scan_first_match (header : string) (l : list (string * string)) :
  scan header l = first_match l header.
Proof.
  unfold first_match.
  induction l as [|[magic format] l IH]; simpl; [reflexivity|].
  rewrite <- startsWith_prefix.
  destruct (JS.startsWith header magic); [reflexivity|exact IH].
Qed.

Lemma detect_first_match (buffer : Buffer.t) :
  detect buffer = first_match registry (fileHeader buffer).
Proof.
  unfold detect. rewrite scan_order. apply scan_first_match.
Qed.

Lemma scan_None (header : string) (l : list (string * string)) :
  scan header l = None <->
  forall magic format, In (magic, format) l -> JS.startsWith header magic = false.
Proof.
  induction l as [|[m f] l IH]; simpl.
  - split; [intros _ ? ? []|reflexivity].
  - destruct (JS.startsWith header m) eqn:E.
    + split; [discriminate|]. intros H.
      specialize (H m f (or_introl eq_refl)). congruence.
    + rewrite IH. split.
      * intros H magic format [Heq|Hin]; [now inversion Heq; subst|eauto].
      * intros H magic format Hin. eauto.
Qed.

Lemma scan_Some (header : string) (l : list (string * string)) (format : string) :
  scan header l = Some format ->
  exists magic, In (magic, format) l /\ JS.startsWith header magic = true.
Proof.
  induction l as [|[m f] l IH]; simpl; [discriminate|].
  destruct (JS.startsWith header m) eqn:E.
  - intros [= <-]. exists m. auto.
  - intros H. destruct (IH H) as (magic & Hin & Hs). exists magic. auto.
Qed.

Lemma detect_None (buffer : Buffer.t) :
  detect buffer = None <-> no_signature buffer.
Proof.
  unfold detect, no_signature. rewrite scan_order, scan_None.
  change registry with magicToFormat.
  split; intros H magic format Hin.
  - intros Hex. apply startsWith_iff in Hex.
    rewrite (H _ _ Hin) in Hex. discriminate.
  - destruct (JS.startsWith (fileHeader buffer) magic) eqn:E; [|reflexivity].
    exfalso. apply (H _ _ Hin). now apply startsWith_iff.
Qed.

Lemma detect_Some (buffer : Buffer.t) :
  has_signature buffer <-> exists format, detect buffer = Some format.
Proof.
  split.
  - intros (magic & format & rest & Hin & Hex).
    destruct (detect buffer) as [f|] eqn:E; [now exists f|].
    exfalso. apply detect_None in E. apply (E _ _ Hin). now exists rest.
  - intros [format E]. unfold detect in E. rewrite scan_order in E.
    apply scan_Some in E as (magic & Hin & Hs).
    apply startsWith_iff in Hs as [rest Hs].
    now exists magic, format, rest.
Qed.

(** Every format of the registry is a non-empty string, hence truthy. *)
Lemma detect_truthy (buffer : Buffer.t) (format : string) :
  detect buffer = Some format -> JS.truthy (Some format) = true.
Proof.
  unfold detect. rewrite scan_order. intros H.
  apply scan_Some in H as (magic & Hin & _).
  simpl in Hin.
  repeat (destruct Hin as [Hin|Hin]; [inversion Hin; reflexivity|]).
  contradiction.
Qed.

Lemma length_ltb_4 (buffer : Buffer.t) :
  4 <= List.length buffer -> (List.length buffer <? 4)%nat = false.
Proof. intros H. apply Nat.ltb_ge. exact H. Qed.

(** C3. A buffer of fewer than four bytes fails both the detection and
    the cross-validation with status 415, kind [InvalidImage] and the
    message "File too small to be a valid image", whatever the declared
    content type, present or absent. *)
Theorem too_small_rejected (buffer : Buffer.t) (contentType : option string) :
  List.length buffer < 4 ->
  detectedFormat buffer =
    Throw (Typed (mkError 415 "InvalidImage" "File too small to be a valid image")) /\
  validateImageMagicNumbers buffer contentType =
    Throw (Typed (mkError 415 "InvalidImage" "File too small to be a valid image")).
Proof.
  intros H. apply Nat.ltb_lt in H.
  unfold detectedFormat, validateImageMagicNumbers. rewrite H. now split.
Qed.

Lemma too_small_rejected_witness :
  detectedFormat [xff; xd8] =
    Throw (Typed (mkError 415 "InvalidImage" "File too small to be a valid image")) /\
  validateImageMagicNumbers [xff; xd8] (Some "image/jpeg") =
    Throw (Typed (mkError 415 "InvalidImage" "File too small to be a valid image")).
Proof. apply (too_small_rejected [xff; xd8] (Some "image/jpeg")). simpl. lia. Defined.

(** The hex encoding as the specification means it: two digits per
    byte, the high one first, the letters in capitals. *)
Definition digits : list ascii :=
  [ "0"; "1"; "2"; "3"; "4"; "5"; "6"; "7";
    "8"; "9"; "A"; "B"; "C"; "D"; "E"; "F" ]%char.

Definition digit (n : N) : ascii := nth (N.to_nat n) digits "0"%char.

Fixpoint hex (bytes : list byte) : string :=
  match bytes with
  | [] => EmptyString
  | b :: rest =>
      String (digit (Byte.to_N b / 16))
        (String (digit (Byte.to_N b mod 16)) (hex rest))
  end.

(** The hex encoding of the first four bytes. *)
Definition encoded_header (buffer : Buffer.t) : string := hex (firstn 4 buffer).

Lemma HEX_hex (b : byte) : HEX b = hex [b].
Proof. destruct b; reflexivity. Qed.

Lemma toString_hex_upper (bytes : list byte) :
  JS.toUpperCase (Buffer.toString_hex bytes) = hex bytes.
Proof.
  induction bytes as [|b rest IH]; [reflexivity|].
  pose proof (HEX_hex b) as Hb. unfold HEX, JS.toUpperCase in *.
  cbn in Hb. injection Hb as H1 H2.
  cbn. now rewrite H1, H2, IH.
Qed.

(** What the code compares the prefixes with is that encoding. *)
Lemma fileHeader_encoded (buffer : Buffer.t) :
  fileHeader buffer = encoded_header buffer.
Proof. apply toString_hex_upper. Qed.

(** No prefix of the registry starts the encoded header. *)
Definition no_prefix_matches (buffer : Buffer.t) : Prop :=
  forall magic format, In (magic, format) registry ->
    ~ exists rest, encoded_header buffer = magic ++ rest.

(** C4. On a buffer of at least four bytes the detection does not fail:
    it returns the format paired with the first prefix, in the order of
    the registry FFD8FF, 89504E47, 47494638, 52494646, 49492A00,
    4D4D002A, that starts the hex encoding of the first four bytes, and
    no format when none of them starts it. *)
Theorem detection_first_match (buffer : Buffer.t) :
  4 <= List.length buffer ->
  detectedFormat buffer = Ok (first_match registry (encoded_header buffer)) /\
  (no_prefix_matches buffer -> detectedFormat buffer = Ok None).
Proof.
  intros H. unfold detectedFormat. rewrite (length_ltb_4 _ H). split.
  - now rewrite detect_first_match, fileHeader_encoded.
  - intros Hno.
    assert (Hnone : detect buffer = None).
    { apply detect_None. unfold no_signature.
      rewrite fileHeader_encoded. exact Hno. }
    now rewrite Hnone.
Qed.

(** A JPEG header is detected; the bytes 00 01 02 03 have no format. *)
Lemma detection_first_match_witness :
  detectedFormat [xff; xd8; xff; xe0; x00; x10] = Ok (Some "jpeg") /\
  detectedFormat [x00; x01; x02; x03] = Ok None.
Proof.
  split.
  - exact (proj1 (detection_first_match [xff; xd8; xff; xe0; x00; x10]
                    ltac:(simpl; lia))).
  - apply (proj2 (detection_first_match [x00; x01; x02; x03]
                    ltac:(simpl; lia))).
    intros magic format Hin [rest E]. simpl in Hin.
    repeat (destruct Hin as [Hin|Hin];
            [injection Hin as <- _; vm_compute in E; discriminate E|]).
    contradiction.
Defined.

(** Each registered prefix, followed by any bytes, is detected as its
    paired format. *)
Example detects_jpeg : detectedFormat [xff; xd8; xff; xe0] = Ok (Some "jpeg").
Proof. reflexivity. Qed.
Example detects_png : detectedFormat [x89; x50; x4e; x47] = Ok (Some "png").
Proof. reflexivity. Qed.
Example detects_gif : detectedFormat [x47; x49; x46; x38] = Ok (Some "gif").
Proof. reflexivity. Qed.
Example detects_webp : detectedFormat [x52; x49; x46; x46] = Ok (Some "webp").
Proof. reflexivity. Qed.
Example detects_tiff_le : detectedFormat [x49; x49; x2a; x00] = Ok (Some "tiff").
Proof. reflexivity. Qed.
Example detects_tiff_be : detectedFormat [x4d; x4d; x00; x2a] = Ok (Some "tiff").
Proof. reflexivity. Qed.

(** *** Cross-validation *)

Lemma table_lookup (key expectedFormat : string) :
  In (key, expectedFormat) contentTypeTable ->
  JS.get contentTypeToFormat key = JS.Own expectedFormat /\
  JS.truthy (Some expectedFormat) = true /\
  JS.truthy (Some key) = true.
Proof.
  simpl. intros H.
  repeat (destruct H as [H|H]; [inversion H; subst; now repeat split|]).
  contradiction.
Qed.

(** C1. On a buffer of at least four bytes: when the lower-cased
    declared content type is a key of the content-type table and no
    signature prefix starts the header, the cross-validation fails with
    status 415, kind [InvalidImage] and the message "Invalid or corrupted
    <expectedFormat> file"; when a signature is detected it succeeds,
    whatever the declared content type, so also when the detected format
    is not the expected one. *)
Theorem cross_validation (buffer : Buffer.t) (ct : string) :
  4 <= List.length buffer ->
  (forall expectedFormat,
      In (JS.toLowerCase ct, expectedFormat) contentTypeTable ->
      no_signature buffer ->
      validateImageMagicNumbers buffer (Some ct) =
        Throw (Typed (mkError 415 "InvalidImage"
                 ("Invalid or corrupted " ++ expectedFormat ++ " file")))) /\
  (has_signature buffer ->
      validateImageMagicNumbers buffer (Some ct) = Ok tt /\
      validateImageMagicNumbers buffer None = Ok tt).
Proof.
  intros Hlen. unfold validateImageMagicNumbers.
  rewrite (length_ltb_4 _ Hlen). split.
  - intros expectedFormat Hin Hno.
    apply detect_None in Hno. rewrite Hno.
    destruct (table_lookup _ _ Hin) as (Hget & Hfmt & Hkey).
    rewrite Hget, Hfmt.
    assert (Hct : JS.truthy (Some ct) = true).
    { destruct ct; [discriminate Hkey|reflexivity]. }
    now rewrite Hct.
  - intros Hsig. apply detect_Some in Hsig as [format Hdet].
    rewrite Hdet, (detect_truthy _ _ Hdet). simpl negb.
    split; [|reflexivity].
    destruct (JS.truthy (Some ct)); [|reflexivity].
    destruct (JS.get contentTypeToFormat (JS.toLowerCase ct)) as [v|shown|];
      try reflexivity.
    now destruct (JS.truthy (Some v)).
Qed.

(** One byte off a PNG signature, declared [image/png]: rejected.  A
    genuine PNG signature, declared [image/jpeg]: accepted. *)
Lemma cross_validation_witness :
  validateImageMagicNumbers [x89; x50; x4e; x46] (Some "image/png") =
    Throw (Typed (mkError 415 "InvalidImage" "Invalid or corrupted png file")) /\
  validateImageMagicNumbers [x89; x50; x4e; x47] (Some "image/jpeg") = Ok tt.
Proof.
  split.
  - destruct (cross_validation [x89; x50; x4e; x46] "image/png") as [H _].
    + simpl. lia.
    + apply (H "png").
      * simpl. auto.
      * apply detect_None. reflexivity.
  - destruct (cross_validation [x89; x50; x4e; x47] "image/jpeg") as [_ H].
    + simpl. lia.
    + apply H. apply detect_Some. exists "png". reflexivity.
Defined.

Example mismatch_tolerated :
  validateImageMagicNumbers [x89; x50; x4e; x47] (Some "image/jpeg") = Ok tt.
Proof. reflexivity. Qed.

Example declared_type_folded :
  validateImageMagicNumbers [x00; x01; x02; x03] (Some "IMAGE/Jpg") =
    Throw (Typed (mkError 415 "InvalidImage" "Invalid or corrupted jpeg file")).
Proof. reflexivity. Qed.

Example undeclared_type_skipped :
  validateImageMagicNumbers [x00; x01; x02; x03] (Some "image/avif") = Ok tt /\
  validateImageMagicNumbers [x00; x01; x02; x03] None = Ok tt.
Proof. split; reflexivity. Qed.

(** *** fetchImage *)

(** A world for the examples: a classifier that takes the host suffix
    [.amazonaws.com/] for the object store, a validator that refuses
    [http://], an error translator that knows no error, and clients that
    answer every request with the given response. *)
Definition example_env (s3 : GetObjectOutput) (http : Response) : Env :=
  mkEnv
    (fun url => JS.includes url ".amazonaws.com/")
    (fun url => Ok ("bucket", "key"))
    (fun lowerName => lowerName)
    (fun url => if JS.startsWith url "https://" then None
                else Some (mkJsError true (Some "Error")
                             (Some "HTTP protocol not allowed") None false None None))
    (fun _ => None)
    (fun _ => None)
    (fun _ => Ok s3)
    (fun _ _ => Ok http)
    (fun _ => 25%Z).

Definition jpeg_object : GetObjectOutput :=
  mkGetObjectOutput (Some (Ok [xff; xd8; xff; xe0])) (Some "image/jpeg").

Definition untyped_response (body : Buffer.t) : Response :=
  mkResponse true 200 "OK" None (Ok body).

Definition start : World := mkWorld 1000 [].

Ltac run :=
  unfold fetchImage, fetchByOrigin, fetchFromHttp, fetch, Date_now,
    bind, try_catch, lift, modify, gets, ret, throw in *.

(** C5. A URL that the object-store classifier rejects and that starts
    with neither [http://] nor [https://] makes [fetchImage] fail with
    status 400, kind [InvalidUrl] and the message "Unsupported URL
    protocol"; the world is left as it was: no request has been sent. *)
Theorem unsupported_protocol (env : Env) (url : string)
    (headers : option Headers) (requestId : option string) (w : World) :
  isS3Url env url = false ->
  (~ exists rest, url = "http://" ++ rest) ->
  (~ exists rest, url = "https://" ++ rest) ->
  fetchImage env url headers requestId w =
    (w, Throw (Typed (mkError 400 "InvalidUrl" "Unsupported URL protocol"))).
Proof.
  intros Hs3 Hhttp Hhttps.
  assert (E1 : JS.startsWith url "http://" = false).
  { destruct (JS.startsWith url "http://") eqn:E; [|reflexivity].
    exfalso. apply Hhttp. now apply startsWith_iff. }
  assert (E2 : JS.startsWith url "https://" = false).
  { destruct (JS.startsWith url "https://") eqn:E; [|reflexivity].
    exfalso. apply Hhttps. now apply startsWith_iff. }
  run. now rewrite Hs3, E1, E2.
Qed.

Lemma not_startsWith (s p : string) :
  JS.startsWith s p = false -> ~ exists rest, s = p ++ rest.
Proof.
  intros H Hex. apply startsWith_iff in Hex. congruence.
Qed.

Lemma unsupported_protocol_witness :
  fetchImage (example_env jpeg_object (untyped_response []))
             "ftp://example.com/image.jpg" None None start =
    (start, Throw (Typed (mkError 400 "InvalidUrl" "Unsupported URL protocol"))).
Proof.
  apply unsupported_protocol.
  - reflexivity.
  - apply not_startsWith. reflexivity.
  - apply not_startsWith. reflexivity.
Defined.

(** The events a call has left are those it found plus its own; a
    failure for an unsupported protocol adds none. *)
Corollary unsupported_protocol_no_request (env : Env) (url : string)
    (headers : option Headers) (requestId : option string) (w : World) :
  isS3Url env url = false ->
  JS.startsWith url "http://" = false ->
  JS.startsWith url "https://" = false ->
  filter is_network (events (fst (fetchImage env url headers requestId w))) =
  filter is_network (events w).
Proof.
  intros Hs3 E1 E2. run. now rewrite Hs3, E1, E2.
Qed.

(** The final format prefers the detected one. *)
Lemma finalFormat_detect (buffer : Buffer.t) (declared : option string) :
  finalFormat (detect buffer) declared =
  match first_match registry (fileHeader buffer) with
  | Some detected => Some detected
  | None => option_map (fun ct => JS.replace ct "image/" "") declared
  end.
Proof.
  rewrite <- detect_first_match. unfold finalFormat.
  destruct (detect buffer) as [f|] eqn:E.
  - now rewrite (detect_truthy _ _ E).
  - simpl. now destruct declared.
Qed.

(** [out] is [ct] with the substring ['image/'] stripped: the first
    ['image/'] of [ct] taken out, or [ct] itself when it holds none. *)
Definition stripped (ct out : string) : Prop :=
  (exists a b,
      ct = a ++ "image/" ++ b /\ out = a ++ b /\
      forall a' b', ct = a' ++ "image/" ++ b' ->
                    String.length a <= String.length a') \/
  ((~ exists a b, ct = a ++ "image/" ++ b) /\ out = ct).

Lemma replace_stripped (ct : string) : stripped ct (JS.replace ct "image/" "").
Proof.
  destruct (replace_first ct "image/" ltac:(discriminate))
    as [(a & b & E & Hr & Hmin)|[Hnone Hr]].
  - left. exists a, b. auto.
  - right. auto.
Qed.

(** C6. When [fetchImage] succeeds, the fetch path has delivered the
    returned body together with a declared content type (or none); the
    size of the metadata is the length of the body; its format is the
    format of the first registry prefix that starts the hex encoding of
    the first four bytes, when there is one, and otherwise the declared
    content type with the substring ['image/'] stripped, absent when no
    content type was declared. *)
Theorem fetched_metadata (env : Env) (url : string) (headers : option Headers)
    (requestId : option string) (w w' : World) (r : FetchResult) :
  fetchImage env url headers requestId w = (w', Ok r) ->
  exists w1 declared,
    fetchByOrigin env url headers w = (w1, Ok (mkFetched (result_buffer r) declared)) /\
    size (metadata r) = List.length (result_buffer r) /\
    match first_match registry (encoded_header (result_buffer r)) with
    | Some detected => format (metadata r) = Some detected
    | None =>
        match declared with
        | Some ct => exists out, format (metadata r) = Some out /\ stripped ct out
        | None => format (metadata r) = None
        end
    end.
Proof.
  unfold fetchImage, Date_now, bind, lift, modify, gets, ret.
  destruct (fetchByOrigin env url headers w) as [w1 [[body declared]|e]];
    [|discriminate].
  cbn [buffer contentType].
  destruct (validateImageMagicNumbers body declared); [|discriminate].
  unfold detectedFormat.
  destruct (List.length body <? 4)%nat; [discriminate|].
  intros [= _ <-]. exists w1, declared.
  cbn [result_buffer metadata size format].
  split; [reflexivity|]. split; [reflexivity|].
  rewrite finalFormat_detect, fileHeader_encoded.
  destruct (first_match registry (encoded_header body)); [reflexivity|].
  destruct declared as [ct|]; [|reflexivity].
  exists (JS.replace ct "image/" ""). split; [reflexivity|].
  apply replace_stripped.
Qed.

Definition jpeg_result : FetchResult :=
  mkFetchResult [xff; xd8; xff; xe0] (mkMetadata 4 (Some "jpeg")).

Definition avif_object : GetObjectOutput :=
  mkGetObjectOutput (Some (Ok [x00; x00; x00; x1c; x66])) (Some "image/avif").

Definition avif_result : FetchResult :=
  mkFetchResult [x00; x00; x00; x1c; x66] (mkMetadata 5 (Some "avif")).

(** An object-store URL whose object holds the bytes FF D8 FF E0 and is
    declared [image/jpeg]: size 4, format [jpeg], by detection.  An
    object without a signature declared [image/avif]: size 5, format
    [avif], by stripping. *)
Lemma fetched_metadata_witness :
  (exists w1 declared,
     fetchByOrigin (example_env jpeg_object (untyped_response []))
                   "https://bucket.s3.amazonaws.com/key" None start =
       (w1, Ok (mkFetched [xff; xd8; xff; xe0] declared)) /\
     size (metadata jpeg_result) = 4%nat /\
     format (metadata jpeg_result) = Some "jpeg") /\
  (exists w1 declared,
     fetchByOrigin (example_env avif_object (untyped_response []))
                   "https://bucket.s3.amazonaws.com/key" None start =
       (w1, Ok (mkFetched [x00; x00; x00; x1c; x66] declared)) /\
     size (metadata avif_result) = 5%nat /\
     match declared with
     | Some ct => exists out, Some "avif" = Some out /\ stripped ct out
     | None => Some "avif" = None
     end).
Proof.
  split.
  - exact (fetched_metadata (example_env jpeg_object (untyped_response []))
             "https://bucket.s3.amazonaws.com/key" None None start
             (fst (fetchImage (example_env jpeg_object (untyped_response []))
                     "https://bucket.s3.amazonaws.com/key" None None start))
             jpeg_result eq_refl).
  - exact (fetched_metadata (example_env avif_object (untyped_response []))
             "https://bucket.s3.amazonaws.com/key" None None start
             (fst (fetchImage (example_env avif_object (untyped_response []))
                     "https://bucket.s3.amazonaws.com/key" None None start))
             avif_result eq_refl).
Defined.

(** What stripping gives is fixed by the cut: ['image/avif'] gives
    ['avif'] and nothing else. *)
Lemma stripped_avif (out : string) : stripped "image/avif" out -> out = "avif".
Proof.
  intros [(a & b & E & -> & Hmin)|[Hnone _]].
  - specialize (Hmin "" "avif" eq_refl).
    destruct a; [|simpl in Hmin; lia].
    simpl in E. injection E as <-. reflexivity.
  - exfalso. apply Hnone. now exists "", "avif".
Qed.

(** Without a signature the declared type decides, with its first
    ['image/'] removed. *)
Example format_from_declared_type :
  let avif := mkGetObjectOutput (Some (Ok [x00; x00; x00; x1c; x66]))
                                (Some "image/avif") in
  snd (fetchImage (example_env avif (untyped_response []))
         "https://bucket.s3.amazonaws.com/key" None None start) =
  Ok (mkFetchResult [x00; x00; x00; x1c; x66] (mkMetadata 5 (Some "avif"))).
Proof. reflexivity. Qed.

Example format_absent :
  let bare := mkGetObjectOutput (Some (Ok [x00; x00; x00; x1c])) None in
  snd (fetchImage (example_env bare (untyped_response []))
         "https://bucket.s3.amazonaws.com/key" None None start) =
  Ok (mkFetchResult [x00; x00; x00; x1c] (mkMetadata 4 None)).
Proof. reflexivity. Qed.

(** *** A response without a content type *)

(** The world once the GET request has been sent and answered. *)
Definition after_get (env : Env) (url : string) (headers : option Headers)
    (w : World) : World :=
  advance (latency env url) (emit (HttpGet url (fetchHeaders headers)) w).

(** The statement under test: the failure is a status 500 [FetchError]. *)
Definition surfaces_FetchError (env : Env) (url : string)
    (headers : option Headers) (w : World) : Prop :=
  exists w' e,
    fetchFromHttp env url headers w = (w', Throw (Typed e)) /\
    statusCode e = 500%Z /\ errorType e = "FetchError".

(** C9, as stated, fails: a successful response without a content type
    and with a body of two bytes is refused by the four-byte floor of the
    detection, which runs before the content type is read again; the
    error is a 415, not a 500. *)
Lemma short_untyped_body_is_415 :
  let env := example_env jpeg_object (untyped_response [xff; xd8]) in
  let url := "https://example.com/image.jpg" in
  http_fetch env url (fetchHeaders None) = Ok (untyped_response [xff; xd8]) /\
  ok (untyped_response [xff; xd8]) = true /\
  content_type (untyped_response [xff; xd8]) = None /\
  fetchFromHttp env url None start =
    (after_get env url None start,
     Throw (Typed (mkError 415 "InvalidImage" "File too small to be a valid image"))) /\
  ~ surfaces_FetchError env url None start.
Proof.
  cbv zeta. repeat split.
  intros (w' & e & H & Hstatus & _).
  vm_compute in H. injection H as _ <-. discriminate Hstatus.
Qed.

(** C9, amended. A successful response without a content type never
    yields the body.  When its body arrives and has at least four bytes,
    the content type, which is [null], is dereferenced for the comparison
    with ['binary/octet-stream']; the error translator knowing nothing of
    that TypeError, the failure is a status 500 [FetchError].  When the
    body has fewer than four bytes, the failure is the 415 of the
    detection. *)
Theorem untyped_response_fails (env : Env) (url : string)
    (headers : option Headers) (w : World) (response : Response) :
  http_fetch env url (fetchHeaders headers) = Ok response ->
  ok response = true ->
  content_type response = None ->
  (exists e, fetchFromHttp env url headers w =
               (after_get env url headers w, Throw (Typed e))) /\
  (forall body,
      arrayBuffer response = Ok body ->
      4 <= List.length body ->
      mapError env (TypeError_null "toLowerCase") = None ->
      fetchFromHttp env url headers w =
        (after_get env url headers w,
         Throw (Typed (mkError 500 "FetchError"
           ("Failed to fetch image from " ++ url ++
            ": Cannot read properties of null (reading 'toLowerCase')"))))) /\
  (forall body,
      arrayBuffer response = Ok body ->
      List.length body < 4 ->
      fetchFromHttp env url headers w =
        (after_get env url headers w,
         Throw (Typed (mkError 415 "InvalidImage"
                         "File too small to be a valid image")))).
Proof.
  intros Hfetch Hok Htype.
  assert (Hrun : fetchFromHttp env url headers w =
    (after_get env url headers w,
     Throw (Typed
       match arrayBuffer response with
       | Ok body =>
           if (List.length body <? 4)%nat then tooSmall
           else handleFetchError env (Untyped (TypeError_null "toLowerCase")) url
       | Throw o =>
           if is_AbortError (Untyped o)
           then mkError 504 "RequestTimeout" "Origin Request timeout"
           else handleFetchError env (Untyped o) url
       end))).
  { run. rewrite Hfetch, Hok, Htype.
    destruct (arrayBuffer response) as [body|o].
    - unfold detectedFormat.
      destruct (List.length body <? 4)%nat; reflexivity.
    - cbn.
      destruct (name o) as [n|]; [destruct (n =? "AbortError")|]; reflexivity. }
  rewrite Hrun. repeat split.
  - eauto.
  - intros body Hbody Hlen Hmap.
    rewrite Hbody, (length_ltb_4 _ Hlen). cbn. now rewrite Hmap.
  - intros body Hbody Hlen. apply Nat.ltb_lt in Hlen.
    now rewrite Hbody, Hlen.
Qed.

Lemma untyped_response_fails_witness :
  let env := example_env jpeg_object (untyped_response [xff; xd8; xff; xe0]) in
  let url := "https://example.com/image.jpg" in
  fetchFromHttp env url None start =
    (after_get env url None start,
     Throw (Typed (mkError 500 "FetchError"
       ("Failed to fetch image from " ++ url ++
        ": Cannot read properties of null (reading 'toLowerCase')")))) /\
  fetchFromHttp (example_env jpeg_object (untyped_response [xff; xd8])) url
                None start =
    (after_get env url None start,
     Throw (Typed (mkError 415 "InvalidImage"
                     "File too small to be a valid image"))).
Proof.
  cbv zeta. split.
  - destruct (untyped_response_fails
                (example_env jpeg_object (untyped_response [xff; xd8; xff; xe0]))
                "https://example.com/image.jpg" None start
                (untyped_response [xff; xd8; xff; xe0])
                eq_refl eq_refl eq_refl) as (_ & H & _).
    apply (H [xff; xd8; xff; xe0]).
    + reflexivity.
    + simpl. lia.
    + reflexivity.
  - destruct (untyped_response_fails
                (example_env jpeg_object (untyped_response [xff; xd8]))
                "https://example.com/image.jpg" None start
                (untyped_response [xff; xd8])
                eq_refl eq_refl eq_refl) as (_ & _ & H).
    apply (H [xff; xd8]).
    + reflexivity.
    + simpl. lia.
Defined.

(** What [fetchFromHttp] throws reaches the caller of [fetchImage]
    unchanged. *)
Lemma fetchImage_http_failure (env : Env) (url : string)
    (headers : option Headers) (requestId : option string)
    (w w' : World) (e : Thrown) :
  isS3Url env url = false ->
  JS.startsWith url "http://" || JS.startsWith url "https://" = true ->
  validate env url = None ->
  fetchFromHttp env url headers w = (w', Throw e) ->
  fetchImage env url headers requestId w = (w', Throw e).
Proof.
  intros Hs3 Hscheme Hvalid Hfail.
  unfold fetchImage, fetchByOrigin, Date_now, bind, gets.
  now rewrite Hs3, Hscheme, Hvalid, Hfail.
Qed.

End FetcherProps.

(* ===================================================================== *)
(** ** Properties of ConnectionManager *)
(* ===================================================================== *)

Module ProbeProps.
Import ConnectionManager.
Import JSFacts.

(** *** Content-type acceptance *)

(** The declared content type without its parameters: everything from
    the first [;] on removed, then trimmed. *)
Definition media (contentType : string) : string :=
  JS.trim (before ";" contentType).

Lemma mediaType_media (contentType : string) : mediaType contentType = media contentType.
Proof. unfold mediaType, media. now rewrite split_hd. Qed.

Definition accepts (contentType : string) : Prop :=
  validateContentType (Some contentType) = Ok tt.

(** The acceptance rule as the specification words it. *)
Definition stated_rule (contentType : string) : Prop :=
  (exists rest, media contentType = "image/" ++ rest) \/
  media contentType = "binary/octet-stream".

(** The acceptance rule of the code. *)
Definition prefix_rule (contentType : string) : Prop :=
  (exists rest, media contentType = "image/" ++ rest) \/
  (exists rest, media contentType = "binary/octet-stream" ++ rest).

Lemma validateContentType_cases (contentType : string) :
  validateContentType (Some contentType) =
  if JS.startsWith (media contentType) "image/" ||
     JS.startsWith (media contentType) "binary/octet-stream"
  then Ok tt
  else Throw (Typed (invalidContentType (Some contentType))).
Proof.
  unfold validateContentType, startsWith_opt. rewrite mediaType_media.
  destruct (JS.startsWith (media contentType) "image/");
    destruct (JS.startsWith (media contentType) "binary/octet-stream");
    reflexivity.
Qed.

Lemma accepts_prefix_rule (contentType : string) :
  accepts contentType <-> prefix_rule contentType.
Proof.
  unfold accepts, prefix_rule. rewrite validateContentType_cases.
  rewrite <- !startsWith_iff.
  destruct (JS.startsWith (media contentType) "image/");
    destruct (JS.startsWith (media contentType) "binary/octet-stream");
    simpl; split; auto; try discriminate; intros [H|H]; discriminate.
Qed.

(** C2, as stated, fails: a media type that continues after
    [binary/octet-stream] is accepted, though it neither begins with
    [image/] nor equals [binary/octet-stream]. *)
Lemma longer_octet_stream_accepted :
  ~ (accepts "binary/octet-stream-compressed; q=1" <->
     stated_rule "binary/octet-stream-compressed; q=1").
Proof.
  intros [H _].
  destruct (H eq_refl) as [[rest E]|E]; vm_compute in E; discriminate E.
Qed.

(** C2, amended. A content type is accepted exactly when, with
    everything from the first [;] on removed and then trimmed, it begins
    with [image/] or begins with [binary/octet-stream], letter case as
    written; any other value, and an absent content type, is refused with
    status 400 and kind [INVALID_FORMAT]. *)
Theorem content_type_acceptance (contentType : string) :
  (accepts contentType <-> prefix_rule contentType) /\
  (~ prefix_rule contentType ->
     exists e, validateContentType (Some contentType) = Throw (Typed e) /\
               statusCode e = 400%Z /\ errorType e = "INVALID_FORMAT") /\
  (exists e, validateContentType None = Throw (Typed e) /\
             statusCode e = 400%Z /\ errorType e = "INVALID_FORMAT").
Proof.
  split; [apply accepts_prefix_rule|]. split.
  - intros Hno. rewrite <- accepts_prefix_rule in Hno. unfold accepts in Hno.
    rewrite validateContentType_cases in *.
    destruct (JS.startsWith (media contentType) "image/" ||
              JS.startsWith (media contentType) "binary/octet-stream").
    + now contradiction Hno.
    + eexists. repeat split.
  - eexists. repeat split.
Qed.

(** [image/jpeg], with a parameter and blanks, is accepted; [IMAGE/JPEG]
    is refused. *)
Lemma content_type_acceptance_witness :
  accepts " image/jpeg ; charset=binary" /\
  exists e, validateContentType (Some "IMAGE/JPEG") = Throw (Typed e) /\
            statusCode e = 400%Z /\ errorType e = "INVALID_FORMAT".
Proof.
  split.
  - apply (proj1 (content_type_acceptance " image/jpeg ; charset=binary")).
    left. exists "jpeg". reflexivity.
  - apply (proj1 (proj2 (content_type_acceptance "IMAGE/JPEG"))).
    intros [[rest E]|[rest E]]; vm_compute in E; discriminate E.
Defined.

Example accepts_lower_case : validateContentType (Some "image/jpeg") = Ok tt.
Proof. reflexivity. Qed.

Example refuses_upper_case :
  validateContentType (Some "IMAGE/JPEG") =
  Throw (Typed (mkError "Invalid content type"
                  "Origin does not serve image content. Content-Type: IMAGE/JPEG"
                  400 "INVALID_FORMAT")).
Proof. reflexivity. Qed.

Example accepts_octet_stream : validateContentType (Some "binary/octet-stream") = Ok tt.
Proof. reflexivity. Qed.

(** *** URL validation *)

Definition mentions (message word : string) : Prop :=
  exists before after, message = before ++ word ++ after.

(** The message the probe takes from what the validator threw. *)
Definition validator_message (error : JsError) : string :=
  if instanceofError error then render (message error) else "Invalid URL".

(** C7. When the validator fails on the URL, [validateOriginUrl] fails
    with status 400 and carries the validator's message; the kind is
    [UNSUPPORTED_PROTOCOL] when that message contains "protocol" and
    [INVALID_URL] when it does not.  Nothing has been sent and the
    request is as it was. *)
Theorem url_validation_failure (env : Env) (url : string) (s : State)
    (error : JsError) :
  validate env url = Some error ->
  exists e,
    validateOriginUrl env url s = (s, Throw (Typed e)) /\
    statusCode e = 400%Z /\
    errMessage e = validator_message error /\
    (forall m, instanceofError error = true -> message error = Some m ->
               errMessage e = m) /\
    (mentions (validator_message error) "protocol" ->
       errorType e = "UNSUPPORTED_PROTOCOL") /\
    (~ mentions (validator_message error) "protocol" ->
       errorType e = "INVALID_URL").
Proof.
  intros Hv. exists (urlValidationFailed error).
  unfold validateOriginUrl, Date_now, bind, gets, throw. rewrite Hv.
  unfold urlValidationFailed. fold (validator_message error). cbn.
  repeat split.
  - intros m Hi Hm. unfold validator_message. now rewrite Hi, Hm.
  - intros Hm. apply includes_iff in Hm. now rewrite Hm.
  - intros Hm.
    destruct (JS.includes (validator_message error) "protocol") eqn:E;
      [|reflexivity].
    exfalso. apply Hm. now apply includes_iff.
Qed.

(** A world for the examples: the validator refuses [http://] and URLs
    with a blank; the two clients answer every probe the same way. *)
Definition refusal (text : string) : JsError :=
  mkJsError true (Some "Error") (Some text) None false None None.

Definition example_env (s3 http : result JsError (option string)) : Env :=
  mkEnv
    (fun url => JS.includes url ".amazonaws.com/")
    (fun url => Ok ("bucket", "key"))
    (fun lowerName => lowerName)
    (fun url => if JS.includes url " " then Some (refusal "Invalid URL format")
                else if JS.startsWith url "https://" then None
                else Some (refusal "HTTP protocol not allowed. Only HTTPS URLs are supported"))
    (fun _ => s3)
    (fun _ _ => http)
    (fun _ => 40%Z).

(** A request that already has a content type and a timing slot. *)
Definition prepared : ImageProcessingRequest :=
  mkRequest (Some [("Accept", "image/*")]) (Some "image/previous")
            (Some (mkTimings (Some (mkRequestResolution None)))).

Definition start : State := mkState 5000 prepared [].

Lemma url_validation_failure_witness :
  validateOriginUrl (example_env (Ok None) (Ok None))
                    "http://example.com/image.jpg" start =
    (start, Throw (Typed (mkError "URL validation failed"
       "HTTP protocol not allowed. Only HTTPS URLs are supported"
       400 "UNSUPPORTED_PROTOCOL"))) /\
  validateOriginUrl (example_env (Ok None) (Ok None))
                    "https://example.com/an image.jpg" start =
    (start, Throw (Typed (mkError "URL validation failed"
       "Invalid URL format" 400 "INVALID_URL"))).
Proof.
  split.
  - destruct (url_validation_failure (example_env (Ok None) (Ok None))
                "http://example.com/image.jpg" start
                (refusal "HTTP protocol not allowed. Only HTTPS URLs are supported")
                eq_refl) as (e & Hrun & Hs & Hm & _ & Hp & _).
    rewrite Hrun. destruct e as [t m c k]; cbn in *.
    rewrite Hp.
    + inversion Hrun; subst. reflexivity.
    + exists "HTTP ", " not allowed. Only HTTPS URLs are supported". reflexivity.
  - destruct (url_validation_failure (example_env (Ok None) (Ok None))
                "https://example.com/an image.jpg" start
                (refusal "Invalid URL format")
                eq_refl) as (e & Hrun & Hs & Hm & _ & _ & Hn).
    rewrite Hrun. destruct e as [t m c k]; cbn in *.
    rewrite Hn.
    + inversion Hrun; subst. reflexivity.
    + intros Hex. apply includes_iff in Hex. discriminate Hex.
Defined.

(** *** Failure mapping of the HTTP probe *)

(** How axios presents a failed probe: with the response of the origin,
    or with an error code and, as for every failure of the network, no
    response that the first three rules catch. *)
Definition responded (o : JsError) (status : Z) : Prop :=
  isAxiosError o = true /\ response_status o = Some status.

Definition unmapped_status (o : JsError) : Prop :=
  forall status, response_status o = Some status ->
    status <> 404%Z /\ status <> 403%Z /\ status <> 401%Z /\ (status < 500)%Z.

Definition failed_with (o : JsError) (c : string) : Prop :=
  isAxiosError o = true /\ code o = Some c /\ unmapped_status o.

Definition other_failure (o : JsError) : Prop :=
  isAxiosError o = false \/
  (unmapped_status o /\
   forall c, code o = Some c ->
     c <> "ECONNABORTED" /\ c <> "ENOTFOUND" /\
     c <> "CERT_UNTRUSTED" /\ c <> "UNABLE_TO_VERIFY_LEAF_SIGNATURE").

Definition kind (e : ConnectionError) : Z * string := (statusCode e, errorType e).

(** The headers of the probe and the state once it has been sent. *)
Definition probe_headers (s : State) : Headers :=
  match clientHeaders (request s) with Some h => h | None => [] end.

Definition after_head (env : Env) (url : string) (s : State) : State :=
  advance (latency env url) (emit (HttpHead url (probe_headers s)) s).

Lemma unmapped_status_tests (o : JsError) (status : Z) :
  unmapped_status o -> response_status o = Some status ->
  (status =? 404)%Z = false /\ (status =? 403)%Z = false /\
  (status =? 401)%Z = false /\ (status >=? 500)%Z = false.
Proof.
  intros H Hs. destruct (H _ Hs) as (H1 & H2 & H3 & H4).
  repeat split; try (apply Z.eqb_neq; assumption).
  rewrite Z.geb_leb. apply Z.leb_gt. exact H4.
Qed.

Lemma code_is_true (o : JsError) (c : string) :
  code o = Some c -> code_is o c = true.
Proof. intros H. unfold code_is. rewrite H. apply String.eqb_refl. Qed.

Lemma code_is_false (o : JsError) (c : string) :
  (forall c', code o = Some c' -> c' <> c) -> code_is o c = false.
Proof.
  intros H. unfold code_is. destruct (code o) as [c'|]; [|reflexivity].
  apply String.eqb_neq. now apply H.
Qed.

(** The part of [mapHttpError] that looks at [error.code]. *)
Lemma mapHttpError_network (url : string) (o : JsError) :
  isAxiosError o = true -> unmapped_status o ->
  kind (mapHttpError url (Untyped o)) =
  if code_is o "ECONNABORTED" then (408%Z, "REQUEST_TIMEOUT")
  else if code_is o "ENOTFOUND" then (404%Z, "HOST_NOT_FOUND")
  else if code_is o "CERT_UNTRUSTED" || code_is o "UNABLE_TO_VERIFY_LEAF_SIGNATURE"
  then (403%Z, "ACCESS_DENIED")
  else (502%Z, "BAD_GATEWAY").
Proof.
  intros Hax Hun. unfold mapHttpError. rewrite Hax.
  destruct (response_status o) as [status|] eqn:Hs.
  - destruct (unmapped_status_tests _ _ Hun Hs) as (E1 & E2 & E3 & E4).
    rewrite E1, E2, E3, E4. cbn [orb].
    destruct (code_is o "ECONNABORTED"); [reflexivity|].
    destruct (code_is o "ENOTFOUND"); [reflexivity|].
    now destruct (code_is o "CERT_UNTRUSTED" ||
                  code_is o "UNABLE_TO_VERIFY_LEAF_SIGNATURE").
  - destruct (code_is o "ECONNABORTED"); [reflexivity|].
    destruct (code_is o "ENOTFOUND"); [reflexivity|].
    now destruct (code_is o "CERT_UNTRUSTED" ||
                  code_is o "UNABLE_TO_VERIFY_LEAF_SIGNATURE").
Qed.

(** C8, amended. When the HEAD request fails, [validateHttpOrigin]
    fails with: 404 [RESOURCE_NOT_FOUND] for a response of status 404;
    the status of the response and [ACCESS_DENIED] for 403 and 401; 502
    [BAD_GATEWAY] for a status of 500 or more; 408 [REQUEST_TIMEOUT] for
    an expired deadline (code ECONNABORTED); 404 [HOST_NOT_FOUND] for a
    host that does not resolve (code ENOTFOUND); 403 [ACCESS_DENIED] for
    a certificate that is not trusted when the failure carries the code
    CERT_UNTRUSTED or UNABLE_TO_VERIFY_LEAF_SIGNATURE; 502 [BAD_GATEWAY]
    for every other failure, a certificate refused under any other code
    among them. *)
Theorem http_probe_failure (env : Env) (url : string) (s : State) (o : JsError) :
  axios_head env url (probe_headers s) = Throw o ->
  exists e,
    validateHttpOrigin env url s = (after_head env url s, Throw (Typed e)) /\
    (responded o 404 -> kind e = (404%Z, "RESOURCE_NOT_FOUND")) /\
    (forall status, responded o status -> status = 403%Z \/ status = 401%Z ->
       kind e = (status, "ACCESS_DENIED")) /\
    (forall status, responded o status -> (500 <= status)%Z ->
       kind e = (502%Z, "BAD_GATEWAY")) /\
    (failed_with o "ECONNABORTED" -> kind e = (408%Z, "REQUEST_TIMEOUT")) /\
    (failed_with o "ENOTFOUND" -> kind e = (404%Z, "HOST_NOT_FOUND")) /\
    (failed_with o "CERT_UNTRUSTED" \/
     failed_with o "UNABLE_TO_VERIFY_LEAF_SIGNATURE" ->
       kind e = (403%Z, "ACCESS_DENIED")) /\
    (other_failure o -> kind e = (502%Z, "BAD_GATEWAY")).
Proof.
  intros Hhead. exists (mapHttpError url (Untyped o)). split.
  { unfold validateHttpOrigin, head, try_catch, bind, gets, modify, throw, lift.
    fold (probe_headers s). cbn. fold (probe_headers s).
    now rewrite Hhead. }
  repeat split.
  - intros [Hax Hs]. unfold mapHttpError. now rewrite Hax, Hs.
  - intros status [Hax Hs] [->| ->]; unfold mapHttpError;
      now rewrite Hax, Hs.
  - intros status [Hax Hs] Hge. unfold mapHttpError. rewrite Hax, Hs.
    destruct (Z.eqb_spec status 404); [lia|].
    destruct (Z.eqb_spec status 403); [lia|].
    destruct (Z.eqb_spec status 401); [lia|].
    cbn [orb]. rewrite Z.geb_leb.
    destruct (Z.leb_spec 500 status); [reflexivity|lia].
  - intros (Hax & Hc & Hun). rewrite (mapHttpError_network _ _ Hax Hun).
    now rewrite (code_is_true _ _ Hc).
  - intros (Hax & Hc & Hun). rewrite (mapHttpError_network _ _ Hax Hun).
    rewrite (code_is_true _ _ Hc).
    rewrite code_is_false; [reflexivity|].
    intros c' Hc'. rewrite Hc in Hc'. now inversion Hc'.
  - intros [(Hax & Hc & Hun)|(Hax & Hc & Hun)];
      rewrite (mapHttpError_network _ _ Hax Hun);
      rewrite (code_is_true _ _ Hc);
      rewrite !code_is_false
        by (intros c' Hc'; rewrite Hc in Hc'; now inversion Hc');
      reflexivity.
  - intros [Hax|[Hun Hc]].
    + unfold mapHttpError. now rewrite Hax.
    + destruct (isAxiosError o) eqn:Hax.
      * rewrite (mapHttpError_network _ _ Hax Hun).
        rewrite !code_is_false by (intros c' Hc'; apply Hc in Hc'; tauto).
        reflexivity.
      * unfold mapHttpError. now rewrite Hax.
Qed.

(** The failures of the examples, as axios throws them. *)
Definition axios_error (response : option Z) (c : string) : JsError :=
  mkJsError true (Some "AxiosError") (Some "probe failed") None true response (Some c).

Definition failing (o : JsError) : Env := example_env (Ok None) (Throw o).

Definition probe_fails (o : JsError) (k : Z * string) : Prop :=
  exists e,
    validateHttpOrigin (failing o) "https://example.com/image.jpg" start =
      (after_head (failing o) "https://example.com/image.jpg" start,
       Throw (Typed e)) /\
    kind e = k.

Ltac probe o :=
  destruct (http_probe_failure (failing o) "https://example.com/image.jpg"
              start o eq_refl)
    as (e & Hrun & H404 & Hdenied & H5xx & Htimeout & Hhost & Hcert & Hother);
  exists e; split; [exact Hrun|].

Ltac no_response := intros status Hs; discriminate Hs.

Lemma http_probe_failure_witness :
  probe_fails (axios_error (Some 404%Z) "ERR_BAD_REQUEST") (404%Z, "RESOURCE_NOT_FOUND") /\
  probe_fails (axios_error (Some 401%Z) "ERR_BAD_REQUEST") (401%Z, "ACCESS_DENIED") /\
  probe_fails (axios_error (Some 503%Z) "ERR_BAD_RESPONSE") (502%Z, "BAD_GATEWAY") /\
  probe_fails (axios_error None "ECONNABORTED") (408%Z, "REQUEST_TIMEOUT") /\
  probe_fails (axios_error None "ENOTFOUND") (404%Z, "HOST_NOT_FOUND") /\
  probe_fails (axios_error None "CERT_UNTRUSTED") (403%Z, "ACCESS_DENIED") /\
  probe_fails (axios_error (Some 301%Z) "ERR_BAD_REQUEST") (502%Z, "BAD_GATEWAY") /\
  probe_fails (axios_error None "CERT_HAS_EXPIRED") (502%Z, "BAD_GATEWAY").
Proof.
  repeat split.
  - probe (axios_error (Some 404%Z) "ERR_BAD_REQUEST").
    apply H404. split; reflexivity.
  - probe (axios_error (Some 401%Z) "ERR_BAD_REQUEST").
    apply Hdenied; [split; reflexivity|now right].
  - probe (axios_error (Some 503%Z) "ERR_BAD_RESPONSE").
    apply (H5xx 503%Z); [split; reflexivity|lia].
  - probe (axios_error None "ECONNABORTED").
    apply Htimeout. split; [reflexivity|split; [reflexivity|no_response]].
  - probe (axios_error None "ENOTFOUND").
    apply Hhost. split; [reflexivity|split; [reflexivity|no_response]].
  - probe (axios_error None "CERT_UNTRUSTED").
    apply Hcert. left. split; [reflexivity|split; [reflexivity|no_response]].
  - probe (axios_error (Some 301%Z) "ERR_BAD_REQUEST").
    apply Hother. right. split.
    + intros status Hs. injection Hs as <-. lia.
    + intros c Hc. injection Hc as <-. repeat split; discriminate.
  - probe (axios_error None "CERT_HAS_EXPIRED").
    apply Hother. right. split.
    + no_response.
    + intros c Hc. injection Hc as <-. repeat split; discriminate.
Defined.

(** The codes under which the TLS layer reports a certificate that it
    does not trust. *)
Definition untrusted_certificate_codes : list string :=
  [ "CERT_UNTRUSTED"; "UNABLE_TO_VERIFY_LEAF_SIGNATURE";
    "DEPTH_ZERO_SELF_SIGNED_CERT"; "SELF_SIGNED_CERT_IN_CHAIN";
    "UNABLE_TO_GET_ISSUER_CERT"; "UNABLE_TO_GET_ISSUER_CERT_LOCALLY";
    "CERT_HAS_EXPIRED"; "CERT_NOT_YET_VALID"; "CERT_REVOKED";
    "CERT_REJECTED"; "INVALID_CA" ].

(** A failure of certificate trust: no response, and one of those
    codes. *)
Definition certificate_trust_failure (o : JsError) : Prop :=
  isAxiosError o = true /\ response_status o = None /\
  exists c, code o = Some c /\ In c untrusted_certificate_codes.

(** The rule for certificates as the specification words it: every
    failure of certificate trust is a 403 [ACCESS_DENIED]. *)
Definition stated_certificate_rule (env : Env) (url : string) (s : State)
    (o : JsError) : Prop :=
  axios_head env url (probe_headers s) = Throw o ->
  certificate_trust_failure o ->
  exists s' e,
    validateHttpOrigin env url s = (s', Throw (Typed e)) /\
    kind e = (403%Z, "ACCESS_DENIED").

(** C8, as stated, fails: a self-signed certificate, which the agent
    refuses with the code DEPTH_ZERO_SELF_SIGNED_CERT, is none of the two
    codes the code looks for and ends as a 502 [BAD_GATEWAY]. *)
Lemma self_signed_certificate_is_502 :
  let o := mkJsError true (Some "Error") (Some "self-signed certificate")
                     None true None (Some "DEPTH_ZERO_SELF_SIGNED_CERT") in
  let env := example_env (Ok None) (Throw o) in
  let url := "https://self-signed.example.com/image.jpg" in
  certificate_trust_failure o /\
  validateHttpOrigin env url start =
    (after_head env url start,
     Throw (Typed (mkError "Origin validation failed"
       "Origin validation failed for https://self-signed.example.com/image.jpg: self-signed certificate"
       502 "BAD_GATEWAY"))) /\
  ~ stated_certificate_rule env url start o.
Proof.
  cbv zeta.
  assert (Htrust : certificate_trust_failure
            (mkJsError true (Some "Error") (Some "self-signed certificate")
                       None true None (Some "DEPTH_ZERO_SELF_SIGNED_CERT"))).
  { split; [reflexivity|]. split; [reflexivity|].
    exists "DEPTH_ZERO_SELF_SIGNED_CERT". split; [reflexivity|].
    simpl. tauto. }
  split; [exact Htrust|]. split; [reflexivity|].
  intros Hrule.
  destruct (Hrule eq_refl Htrust) as (s' & e & Hrun & Hkind).
  vm_compute in Hrun. injection Hrun as _ <-. discriminate Hkind.
Qed.

(** *** The request object *)

Ltac unfold_monad :=
  unfold Date_now, try_catch, bind, lift, modify, gets, ret, throw in *.

(** What a run of [validateOriginHeaders] does to the request: nothing
    when it throws; when it returns, the content type is the one the
    origin declared, and the acceptance check has passed on it. *)
Definition headers_outcome (s : State) (run : State * result Thrown unit) : Prop :=
  match run with
  | (s', Throw _) => request s' = request s
  | (s', Ok _) =>
      exists contentType,
        validateContentType contentType = Ok tt /\
        request s' = mkRequest (clientHeaders (request s)) contentType
                               (timings (request s))
  end.

Lemma validateS3Origin_outcome (env : Env) (url : string) (s : State) :
  headers_outcome s (validateS3Origin env url s).
Proof.
  unfold validateS3Origin, send. unfold_monad.
  destruct (parseS3Url env url) as [[bucket key]|o]; cbn; [|reflexivity].
  match goal with
  | |- context [s3_head env ?input] =>
      destruct (s3_head env input) as [contentType|o]; cbn; [|reflexivity]
  end.
  destruct (validateContentType contentType) as [[]|e] eqn:E; cbn.
  - now exists contentType.
  - reflexivity.
Qed.

Lemma validateHttpOrigin_outcome (env : Env) (url : string) (s : State) :
  headers_outcome s (validateHttpOrigin env url s).
Proof.
  unfold validateHttpOrigin, head. unfold_monad. cbn.
  match goal with
  | |- context [axios_head env url ?h] =>
      destruct (axios_head env url h) as [contentType|o]; cbn; [|reflexivity]
  end.
  destruct (validateContentType contentType) as [[]|e] eqn:E; cbn.
  - now exists contentType.
  - reflexivity.
Qed.

Lemma validateOriginHeaders_outcome (env : Env) (url : string) (s : State) :
  headers_outcome s (validateOriginHeaders env url s).
Proof.
  unfold validateOriginHeaders. destruct (isS3Url env url).
  - apply validateS3Origin_outcome.
  - apply validateHttpOrigin_outcome.
Qed.

(** C10. When [validateOriginUrl] fails, whatever the error, the request
    is as the caller passed it: the content type keeps its value and the
    timing slot, also a prepared one, is not written.  When it succeeds,
    the content type it has stored is one the acceptance check has
    passed. *)
Theorem request_written_on_success_only (env : Env) (url : string)
    (s s' : State) :
  (forall e, validateOriginUrl env url s = (s', Throw e) ->
             request s' = request s) /\
  (validateOriginUrl env url s = (s', Ok tt) ->
     validateContentType (sourceImageContentType (request s')) = Ok tt).
Proof.
  unfold validateOriginUrl. unfold_monad.
  destruct (validate env url) as [error|].
  { split; [|discriminate]. intros e H. now inversion H. }
  pose proof (validateOriginHeaders_outcome env url s) as Hout.
  destruct (validateOriginHeaders env url s) as [s1 [[]|e1]]; cbn in Hout.
  - destruct Hout as (contentType & Hacc & Hreq).
    destruct (has_timing_slot (request s1)); split.
    + discriminate.
    + intros H. inversion H; subst. cbn. rewrite Hreq. exact Hacc.
    + discriminate.
    + intros H. inversion H; subst. rewrite Hreq. exact Hacc.
  - split; [|discriminate]. intros e H. inversion H; subst. exact Hout.
Qed.

(** An origin that declares [text/html] and one that declares
    [image/png], probed for a request with a previous content type and a
    prepared timing slot. *)
Definition html_origin : Env := example_env (Ok None) (Ok (Some "text/html")).
Definition png_origin : Env := example_env (Ok None) (Ok (Some "image/png")).

Lemma request_written_on_success_only_witness :
  request (fst (validateOriginUrl html_origin "https://example.com/page" start))
    = prepared /\
  validateContentType
    (sourceImageContentType
       (request (fst (validateOriginUrl png_origin "https://example.com/a.png" start))))
    = Ok tt.
Proof.
  split.
  - apply (proj1 (request_written_on_success_only html_origin
                    "https://example.com/page" start
                    (fst (validateOriginUrl html_origin "https://example.com/page" start)))
             (Typed (invalidContentType (Some "text/html")))).
    reflexivity.
  - apply (proj2 (request_written_on_success_only png_origin
                    "https://example.com/a.png" start
                    (fst (validateOriginUrl png_origin "https://example.com/a.png" start)))).
    reflexivity.
Defined.

(** The refused probe has been sent, and has left the request alone; the
    accepted one has stored the content type and the elapsed time. *)
Example refused_probe :
  validateOriginUrl html_origin "https://example.com/page" start =
  (mkState 5040 prepared [HttpHead "https://example.com/page" [("Accept", "image/*")]],
   Throw (Typed (mkError "Invalid content type"
            "Origin does not serve image content. Content-Type: text/html"
            400 "INVALID_FORMAT"))).
Proof. reflexivity. Qed.

Example accepted_probe :
  validateOriginUrl png_origin "https://example.com/a.png" start =
  (mkState 5040
     (mkRequest (Some [("Accept", "image/*")]) (Some "image/png")
                (Some (mkTimings (Some (mkRequestResolution (Some 40%Z))))))
     [HttpHead "https://example.com/a.png" [("Accept", "image/*")]],
   Ok tt).
Proof. reflexivity. Qed.

(** Without a prepared slot no timing is recorded. *)
Example no_timing_slot :
  request (fst (validateOriginUrl png_origin "https://example.com/a.png"
                  (mkState 0 (mkRequest None None None) []))) =
  mkRequest None (Some "image/png") None.
Proof. reflexivity. Qed.

End ProbeProps.

(* ===================================================================== *)
(** ** Further properties of OriginFetcher *)
(* ===================================================================== *)

Module FetcherMore.
Import OriginFetcher.
Import JSFacts.
Import FetcherProps.

(** *** Detection, byte by byte *)

(** The two hex digits of a byte, in capitals. *)
Definition hi (b : byte) : ascii :=
  JS.upper_char (Buffer.hex_digit (Byte.to_N b / 16)).
Definition lo (b : byte) : ascii :=
  JS.upper_char (Buffer.hex_digit (Byte.to_N b mod 16)).

Lemma HEX_digits (b : byte) : HEX b = String (hi b) (String (lo b) EmptyString).
Proof. reflexivity. Qed.

(** Reading two hex digits back. *)
Definition digit_value (c : ascii) : N :=
  let n := N_of_ascii c in
  if (n <=? 57)%N then (n - 48)%N else (n - 55)%N.

Definition unHEX (s : string) : option byte :=
  match s with
  | String x (String y EmptyString) => Byte.of_N (16 * digit_value x + digit_value y)
  | _ => None
  end.

(** The hex encoding of a byte decodes to the byte. *)
Lemma unHEX_HEX (b : byte) : unHEX (HEX b) = Some b.
Proof. destruct b; reflexivity. Qed.

Lemma HEX_inj (b c : byte) : HEX b = HEX c -> b = c.
Proof.
  intros H. apply (f_equal unHEX) in H.
  rewrite !unHEX_HEX in H. now inversion H.
Qed.

Lemma startsWith_HEX (b c : byte) (s p : string) :
  JS.startsWith (HEX b ++ s) (HEX c ++ p) =
  if byte_eq_dec b c then JS.startsWith s p else false.
Proof.
  rewrite !HEX_digits. cbn [append JS.startsWith].
  destruct (byte_eq_dec b c) as [->|Hne].
  - now rewrite !Ascii.eqb_refl.
  - destruct (Ascii.eqb_spec (hi b) (hi c)) as [Eh|]; [|reflexivity].
    destruct (Ascii.eqb_spec (lo b) (lo c)) as [El|]; [|reflexivity].
    exfalso. apply Hne, HEX_inj. rewrite !HEX_digits. now rewrite Eh, El.
Qed.

(** [buffer] begins with the bytes [sig]. *)
Fixpoint begins (sig : list byte) (buffer : Buffer.t) : bool :=
  match sig, buffer with
  | [], _ => true
  | c :: sig', b :: buffer' => Byte.eqb b c && begins sig' buffer'
  | _ :: _, [] => false
  end.

(** The signatures as bytes. *)
Definition signature (buffer : Buffer.t) : option string :=
  if begins [xff; xd8; xff] buffer then Some "jpeg"
  else if begins [x89; x50; x4e; x47] buffer then Some "png"
  else if begins [x47; x49; x46; x38] buffer then Some "gif"
  else if begins [x52; x49; x46; x46] buffer then Some "webp"
  else if begins [x49; x49; x2a; x00] buffer then Some "tiff"
  else if begins [x4d; x4d; x00; x2a] buffer then Some "tiff"
  else None.

Lemma byte_eqb_dec (b c : byte) :
  Byte.eqb b c = if byte_eq_dec b c then true else false.
Proof.
  destruct (byte_eq_dec b c) as [->|Hne].
  - now apply Byte.byte_dec_lb.
  - destruct (Byte.eqb b c) eqn:E; [|reflexivity].
    now apply Byte.byte_dec_bl in E.
Qed.

Lemma detect_signature (b1 b2 b3 b4 : byte) (rest : Buffer.t) :
  detect (b1 :: b2 :: b3 :: b4 :: rest) = signature (b1 :: b2 :: b3 :: b4 :: rest).
Proof.
  unfold detect. rewrite scan_order, fileHeader_four.
  unfold signature, begins. rewrite !byte_eqb_dec.
  unfold magicToFormat, scan.
  change "FFD8FF" with (HEX xff ++ HEX xd8 ++ HEX xff ++ "").
  change "89504E47" with (HEX x89 ++ HEX x50 ++ HEX x4e ++ HEX x47 ++ "").
  change "47494638" with (HEX x47 ++ HEX x49 ++ HEX x46 ++ HEX x38 ++ "").
  change "52494646" with (HEX x52 ++ HEX x49 ++ HEX x46 ++ HEX x46 ++ "").
  change "49492A00" with (HEX x49 ++ HEX x49 ++ HEX x2a ++ HEX x00 ++ "").
  change "4D4D002A" with (HEX x4d ++ HEX x4d ++ HEX x00 ++ HEX x2a ++ "").
  replace (HEX b1 ++ HEX b2 ++ HEX b3 ++ HEX b4)
    with (HEX b1 ++ HEX b2 ++ HEX b3 ++ HEX b4 ++ "")
    by (rewrite !HEX_digits; reflexivity).
  rewrite !startsWith_HEX.
  repeat match goal with
         | |- context [byte_eq_dec ?b ?c] =>
             destruct (byte_eq_dec b c); cbn [andb JS.startsWith]
         end; reflexivity.
Qed.

(** X1. On a buffer of at least four bytes the detection answers by the
    leading bytes: FF D8 FF is [jpeg], 89 50 4E 47 is [png], 47 49 46 38
    is [gif], 52 49 46 46 is [webp], 49 49 2A 00 and 4D 4D 00 2A are
    [tiff], and anything else has no format. *)
Theorem detectedFormat_by_bytes (buffer : Buffer.t) :
  4 <= List.length buffer ->
  detectedFormat buffer = Ok (signature buffer).
Proof.
  intros H. unfold detectedFormat. rewrite (length_ltb_4 _ H).
  destruct buffer as [|b1 [|b2 [|b3 [|b4 rest]]]]; simpl in H; try lia.
  now rewrite detect_signature.
Qed.

Lemma detectedFormat_by_bytes_witness :
  detectedFormat [x52; x49; x46; x46; x24; x00] = Ok (Some "webp").
Proof. apply (detectedFormat_by_bytes [x52; x49; x46; x46; x24; x00]). simpl. lia. Defined.

(** *** Which declared types are cross-validated *)

Definition is_capital (c : ascii) : bool :=
  let n := N_of_ascii c in ((65 <=? n) && (n <=? 90))%N.

Fixpoint has_capital (s : string) : bool :=
  match s with
  | EmptyString => false
  | String c s' => is_capital c || has_capital s'
  end.

Lemma lower_char_not_capital (c : ascii) : is_capital (JS.lower_char c) = false.
Proof. destruct c as [[] [] [] [] [] [] [] []]; reflexivity. Qed.

(** A lower-cased string holds no capital letter A-Z. *)
Lemma toLowerCase_no_capital (s : string) : has_capital (JS.toLowerCase s) = false.
Proof.
  unfold JS.toLowerCase.
  induction s as [|c s IH]; simpl; [reflexivity|].
  now rewrite lower_char_not_capital, IH.
Qed.

Lemma toLowerCase_neq (s k : string) :
  has_capital k = true -> JS.toLowerCase s <> k.
Proof.
  intros Hk E. rewrite <- E, toLowerCase_no_capital in Hk. discriminate.
Qed.

(** The lower-cased declared types for which the code finds an expected
    format: the six keys of its table, and the two names that every
    object literal inherits and that are written without a capital. *)
Definition expected_keys : list string :=
  [ "image/webp"; "image/png"; "image/jpeg"; "image/jpg"; "image/tiff";
    "image/gif"; "constructor"; "__proto__" ].

Lemma eqb_capital (s k : string) :
  has_capital k = true -> (JS.toLowerCase s =? k) = false.
Proof. intros H. apply String.eqb_neq. now apply toLowerCase_neq. Qed.

Lemma prototype_lower (ct : string) :
  JS.object_prototype (JS.toLowerCase ct) = None <->
  JS.toLowerCase ct <> "constructor" /\ JS.toLowerCase ct <> "__proto__".
Proof.
  unfold JS.object_prototype.
  rewrite (eqb_capital ct "hasOwnProperty"), (eqb_capital ct "isPrototypeOf"),
    (eqb_capital ct "propertyIsEnumerable"), (eqb_capital ct "toLocaleString"),
    (eqb_capital ct "toString"), (eqb_capital ct "valueOf"),
    (eqb_capital ct "__defineGetter__"), (eqb_capital ct "__defineSetter__"),
    (eqb_capital ct "__lookupGetter__"), (eqb_capital ct "__lookupSetter__")
    by reflexivity.
  cbn [orb].
  destruct (String.eqb_spec (JS.toLowerCase ct) "constructor") as [E1|N1].
  { split; [discriminate|]. intros [H _]. contradiction. }
  destruct (String.eqb_spec (JS.toLowerCase ct) "__proto__") as [E2|N2].
  { split; [discriminate|]. intros [_ H]. contradiction. }
  split; [now split|reflexivity].
Qed.

Lemma own_table (k : string) :
  JS.own contentTypeToFormat k = None <->
  ~ In k ["image/webp"; "image/png"; "image/jpeg"; "image/jpg"; "image/tiff";
          "image/gif"].
Proof.
  unfold contentTypeToFormat, JS.own. cbn [In].
  repeat match goal with
         | |- context [String.eqb ?a k] =>
             destruct (String.eqb_spec a k) as [E|?];
             [split; [discriminate|intros H; exfalso; apply H; tauto]|]
         end.
  split; [|reflexivity]. intros _ H. tauto.
Qed.

Lemma get_Undefined (ct : string) :
  JS.get contentTypeToFormat (JS.toLowerCase ct) = JS.Undefined <->
  ~ In (JS.toLowerCase ct) expected_keys.
Proof.
  unfold JS.get, expected_keys.
  pose proof (own_table (JS.toLowerCase ct)) as Hown.
  pose proof (prototype_lower ct) as Hproto.
  cbn [In] in *.
  destruct (JS.own contentTypeToFormat (JS.toLowerCase ct)) as [v|].
  { split; [discriminate|]. intros H. exfalso.
    assert (Some v = None) by (apply Hown; tauto). discriminate. }
  destruct (JS.object_prototype (JS.toLowerCase ct)) as [shown|].
  { split; [discriminate|]. intros H. exfalso.
    assert (Some shown = None).
    { apply Hproto. split; intros E; apply H; rewrite E; tauto. }
    discriminate. }
  split; [|reflexivity]. intros _.
  destruct Hown as [Hown _]. destruct Hproto as [Hproto _].
  specialize (Hown eq_refl). destruct (Hproto eq_refl) as [N1 N2].
  intros H. repeat (destruct H as [H|H]; [try tauto; try (symmetry in H; contradiction)|]).
  exact H.
Qed.

(** X2. On a buffer of at least four bytes, the cross-validation fails
    exactly when the buffer carries none of the signatures and the
    lower-cased declared type is one of the six table keys or one of the
    inherited names [constructor] and [__proto__]; the failure is a 415
    [InvalidImage].  Every other declared type is let through without a
    look at the bytes. *)
Theorem cross_validation_outcome (buffer : Buffer.t) (ct : string) :
  4 <= List.length buffer ->
  (validateImageMagicNumbers buffer (Some ct) = Ok tt <->
     signature buffer <> None \/ ~ In (JS.toLowerCase ct) expected_keys) /\
  (validateImageMagicNumbers buffer (Some ct) <> Ok tt ->
     exists e, validateImageMagicNumbers buffer (Some ct) = Throw (Typed e) /\
               statusCode e = 415%Z /\ errorType e = "InvalidImage").
Proof.
  intros Hlen. unfold validateImageMagicNumbers. rewrite (length_ltb_4 _ Hlen).
  assert (Hsig : detect buffer = signature buffer).
  { destruct buffer as [|b1 [|b2 [|b3 [|b4 rest]]]]; simpl in Hlen; try lia.
    apply detect_signature. }
  rewrite <- Hsig. rewrite <- get_Undefined.
  assert (Hempty : ct = EmptyString ->
            JS.get contentTypeToFormat (JS.toLowerCase ct) = JS.Undefined)
    by (now intros ->).
  destruct (detect buffer) as [f|] eqn:Hdet.
  - rewrite (detect_truthy _ _ Hdet). cbn [negb].
    assert (Hok : (if JS.truthy (Some ct)
                   then match JS.get contentTypeToFormat (JS.toLowerCase ct) with
                        | JS.Own expectedFormat =>
                            if JS.truthy (Some expectedFormat) then Ok tt else Ok tt
                        | JS.Inherited _ => Ok tt
                        | JS.Undefined => Ok tt
                        end
                   else Ok tt) = (Ok tt : result Thrown unit)).
    { destruct (JS.truthy (Some ct)); [|reflexivity].
      destruct (JS.get contentTypeToFormat (JS.toLowerCase ct)) as [v| |];
        try reflexivity.
      now destruct (JS.truthy (Some v)). }
    rewrite Hok. split; [|congruence]. split; [left; discriminate|reflexivity].
  - change (JS.truthy None) with false. cbn [negb].
    destruct ct as [|c ct'].
    { cbn. split; [|congruence]. split; [now right|reflexivity]. }
    change (JS.truthy (Some (String c ct'))) with true. cbv iota.
    destruct (JS.get contentTypeToFormat (JS.toLowerCase (String c ct')))
      as [v|shown|] eqn:Hget.
    + assert (Hv : JS.truthy (Some v) = true).
      { unfold JS.get in Hget.
        destruct (JS.own contentTypeToFormat (JS.toLowerCase (String c ct')))
          as [v'|] eqn:Hown.
        - injection Hget as <-. unfold contentTypeToFormat, JS.own in Hown.
          repeat match type of Hown with
                 | (if ?b then _ else _) = _ =>
                     destruct b; [now injection Hown as <-|]
                 end.
          discriminate.
        - now destruct (JS.object_prototype (JS.toLowerCase (String c ct'))). }
      rewrite Hv. split.
      * split; [discriminate|]. intros [H|H]; [now contradiction H|discriminate].
      * intros _. eexists. repeat split.
    + split.
      * split; [discriminate|]. intros [H|H]; [now contradiction H|discriminate].
      * intros _. eexists. repeat split.
    + split; [|congruence]. split; [now right|reflexivity].
Qed.

Lemma cross_validation_outcome_witness :
  validateImageMagicNumbers [x00; x00; x00; x1c] (Some "image/avif") = Ok tt /\
  exists e,
    validateImageMagicNumbers [x00; x00; x00; x1c] (Some "Constructor") =
      Throw (Typed e) /\
    statusCode e = 415%Z /\ errorType e = "InvalidImage".
Proof.
  split.
  - apply (proj1 (cross_validation_outcome [x00; x00; x00; x1c] "image/avif"
                    ltac:(simpl; lia))).
    right. simpl. intuition discriminate.
  - apply (proj2 (cross_validation_outcome [x00; x00; x00; x1c] "Constructor"
                    ltac:(simpl; lia))).
    discriminate.
Defined.

(** *** The content types of the HTTP path *)

Definition mentions (text word : string) : Prop :=
  exists before after, text = before ++ word ++ after.

(** X3. A content type passes [isValidImageContentType] exactly when,
    lower-cased, it contains one of the eight listed types somewhere:
    letter case does not count, and text before or after the type does
    not either. *)
Theorem valid_type_iff (contentType : string) :
  isValidImageContentType contentType = true <->
  exists type, In type validTypes /\ mentions (JS.toLowerCase contentType) type.
Proof.
  unfold isValidImageContentType, mentions. rewrite existsb_exists.
  split; intros (type & Hin & H); exists type; split; auto;
    now apply includes_iff.
Qed.

Lemma valid_type_iff_witness :
  isValidImageContentType "Image/WebP; q=1" = true.
Proof.
  apply (proj2 (valid_type_iff "Image/WebP; q=1")).
  exists "image/webp". split; [simpl; auto|].
  exists "", "; q=1". reflexivity.
Defined.

Example valid_type_any_case :
  isValidImageContentType "IMAGE/JPEG" = true /\
  isValidImageContentType "text/html; was=image/png" = true /\
  isValidImageContentType "text/html" = false.
Proof. repeat split. Qed.

(** *** Error mapping *)

(** X4. [handleFetchError] hands back an [ImageProcessingError] as it
    is.  Of any other error it makes: the status and message of the
    translator's mapping, with the kind [KeyNotFound] renamed to
    [ImageNotFound], so that this kind never leaves; or, without a
    mapping, a 500 [FetchError] whose message holds the URL and the
    message of the error. *)
Theorem handleFetchError_cases (env : Env) (url : string) :
  (forall e, handleFetchError env (Typed e) url = e) /\
  (forall o, errorType (handleFetchError env (Untyped o) url) <> "KeyNotFound") /\
  (forall o m, mapError env o = Some m ->
     statusCode (handleFetchError env (Untyped o) url) = map_statusCode m /\
     errMessage (handleFetchError env (Untyped o) url) = map_message m /\
     (map_errorType m <> "KeyNotFound" ->
        errorType (handleFetchError env (Untyped o) url) = map_errorType m) /\
     (map_errorType m = "KeyNotFound" ->
        errorType (handleFetchError env (Untyped o) url) = "ImageNotFound")) /\
  (forall o, mapError env o = None ->
     handleFetchError env (Untyped o) url =
       mkError 500 "FetchError"
         ("Failed to fetch image from " ++ url ++ ": " ++ render (message o))).
Proof.
  repeat split.
  - intros o. unfold handleFetchError.
    destruct (mapError env o) as [m|]; cbn; [|discriminate].
    destruct (String.eqb_spec (map_errorType m) "KeyNotFound");
      [discriminate|assumption].
  - unfold handleFetchError. now rewrite H.
  - unfold handleFetchError. now rewrite H.
  - intros Hne. unfold handleFetchError. rewrite H. cbn.
    now destruct (String.eqb_spec (map_errorType m) "KeyNotFound").
  - intros He. unfold handleFetchError. rewrite H. cbn. now rewrite He.
  - intros o H. unfold handleFetchError. now rewrite H.
Qed.

(** An error translator for the examples: it knows the errors named
    [NoSuchKey] and [AccessDenied]. *)
Definition s3_mapError (o : JsError) : option ErrorMapping :=
  match name o with
  | Some n => if n =? "NoSuchKey"
              then Some (mkMapping 404 "KeyNotFound" "The specified key does not exist")
              else if n =? "AccessDenied"
              then Some (mkMapping 403 "AccessDenied" "Access denied to the object")
              else None
  | None => None
  end.

Definition env_with (translate : JsError -> option ErrorMapping)
    (s3 : result JsError GetObjectOutput) (http : result JsError Response) : Env :=
  mkEnv
    (fun url => JS.includes url ".amazonaws.com/")
    (fun url => if JS.includes url "/key" then Ok ("bucket", "key")
                else Throw (mkJsError true (Some "Error")
                              (Some "Invalid S3 URL format") None false None None))
    (fun lowerName => lowerName)
    (fun url => if JS.startsWith url "https://" then None
                else Some (mkJsError true (Some "Error")
                             (Some "HTTP protocol not allowed") None false None None))
    translate
    (fun _ => None)
    (fun _ => s3)
    (fun _ _ => http)
    (fun _ => 25%Z).

Definition NoSuchKey : JsError :=
  mkJsError true (Some "NoSuchKey") (Some "no such key") (Some 404%Z) false None None.

Definition AccessDenied : JsError :=
  mkJsError true (Some "AccessDenied") (Some "denied") (Some 403%Z) false None None.

Definition hang_up : JsError :=
  mkJsError true (Some "Error") (Some "socket hang up") None false None None.

Lemma handleFetchError_cases_witness :
  let env := env_with s3_mapError (Throw NoSuchKey) (Throw NoSuchKey) in
  let url := "https://b.s3.amazonaws.com/key" in
  handleFetchError env (Untyped NoSuchKey) url =
    mkError 404 "ImageNotFound" "The specified key does not exist" /\
  handleFetchError env (Untyped AccessDenied) url =
    mkError 403 "AccessDenied" "Access denied to the object" /\
  handleFetchError env (Untyped hang_up) url =
    mkError 500 "FetchError"
      "Failed to fetch image from https://b.s3.amazonaws.com/key: socket hang up".
Proof.
  cbv zeta.
  destruct (handleFetchError_cases
              (env_with s3_mapError (Throw NoSuchKey) (Throw NoSuchKey))
              "https://b.s3.amazonaws.com/key") as (_ & _ & H & Hnone).
  split; [|split].
  - destruct (H NoSuchKey _ eq_refl) as (Hs & Hm & _ & Hk).
    specialize (Hk eq_refl).
    destruct (handleFetchError _ _ _) as [c k m]. cbn in *. now subst.
  - destruct (H AccessDenied _ eq_refl) as (Hs & Hm & Hk & _).
    specialize (Hk ltac:(discriminate)).
    destruct (handleFetchError _ _ _) as [c k m]. cbn in *. now subst.
  - apply (Hnone hang_up). reflexivity.
Defined.

(** *** The HTTP path *)

Ltac run_http :=
  unfold fetchFromHttp, fetch, try_catch, bind, lift, modify, gets, ret, throw.

Ltac failed :=
  cbv beta iota;
  repeat match goal with
         | |- context [is_AbortError ?e] => destruct (is_AbortError e)
         end;
  cbn; discriminate.

(** X5. A response whose status is not a success makes [fetchFromHttp]
    fail with an [HttpFetchError] that carries the status of the origin
    and its status text; neither the content type nor the body is looked
    at. *)
Theorem http_status_surfaces (env : Env) (url : string)
    (headers : option Headers) (w : World) (response : Response) :
  http_fetch env url (fetchHeaders headers) = Ok response ->
  ok response = false ->
  fetchFromHttp env url headers w =
    (after_get env url headers w,
     Throw (Typed (mkError (status response) "HttpFetchError"
       ("Failed to fetch image: " ++ render_int (status response) ++ " "
        ++ statusText response)))).
Proof.
  intros Hfetch Hok. run_http. now rewrite Hfetch, Hok.
Qed.

Definition not_found : Response :=
  mkResponse false 404 "Not Found" (Some "text/html") (Ok []).

Lemma http_status_surfaces_witness :
  fetchFromHttp (env_with s3_mapError (Throw NoSuchKey) (Ok not_found))
                "https://example.com/missing.jpg" None start =
    (after_get (env_with s3_mapError (Throw NoSuchKey) (Ok not_found))
               "https://example.com/missing.jpg" None start,
     Throw (Typed (mkError 404 "HttpFetchError"
                     "Failed to fetch image: 404 Not Found"))).
Proof.
  apply (http_status_surfaces _ _ None start not_found); reflexivity.
Defined.

(** X6. When the request, or the reading of the body of an accepted
    response, is rejected with an error named [AbortError], as the
    30000 ms timer makes it, [fetchFromHttp] fails with a 504
    [RequestTimeout], whatever the error translator knows. *)
Theorem abort_is_timeout (env : Env) (url : string)
    (headers : option Headers) (w : World) (o : JsError) :
  name o = Some "AbortError" ->
  (http_fetch env url (fetchHeaders headers) = Throw o \/
   exists response ct,
     http_fetch env url (fetchHeaders headers) = Ok response /\
     ok response = true /\
     content_type response = Some ct /\
     isValidImageContentType ct = true /\
     arrayBuffer response = Throw o) ->
  fetchFromHttp env url headers w =
    (after_get env url headers w,
     Throw (Typed (mkError 504 "RequestTimeout" "Origin Request timeout"))).
Proof.
  intros Hname [Hfetch|(response & ct & Hfetch & Hok & Hct & Hvalid & Hbody)];
    run_http; rewrite Hfetch; cbv beta iota.
  - cbn. unfold is_AbortError. now rewrite Hname.
  - rewrite Hok, Hct. cbv beta iota. rewrite Hvalid, Hbody.
    rewrite andb_false_r. cbn. unfold is_AbortError. now rewrite Hname.
Qed.

Definition AbortError : JsError :=
  mkJsError true (Some "AbortError") (Some "This operation was aborted")
            None false None None.

Lemma abort_is_timeout_witness :
  fetchFromHttp (env_with s3_mapError (Throw NoSuchKey) (Throw AbortError))
                "https://example.com/slow.jpg" None start =
    (after_get (env_with s3_mapError (Throw NoSuchKey) (Throw AbortError))
               "https://example.com/slow.jpg" None start,
     Throw (Typed (mkError 504 "RequestTimeout" "Origin Request timeout"))).
Proof.
  apply (abort_is_timeout _ _ None start AbortError); [reflexivity|].
  left. reflexivity.
Defined.

(** X7. A successful response that declares a content type which is
    not [binary/octet-stream] (lower-cased and trimmed) and contains none
    of the listed image types is refused with a 415
    [InvalidContentType] that quotes the content type; its body is not
    read. *)
Theorem foreign_content_type_refused (env : Env) (url : string)
    (headers : option Headers) (w : World) (response : Response) (ct : string) :
  http_fetch env url (fetchHeaders headers) = Ok response ->
  ok response = true ->
  content_type response = Some ct ->
  ct <> EmptyString ->
  JS.trim (JS.toLowerCase ct) <> "binary/octet-stream" ->
  isValidImageContentType ct = false ->
  fetchFromHttp env url headers w =
    (after_get env url headers w,
     Throw (Typed (mkError 415 "InvalidContentType"
                     ("Invalid content type: " ++ ct)))).
Proof.
  intros Hfetch Hok Hct Hne Hoctet Hvalid. run_http.
  rewrite Hfetch. cbv beta iota. rewrite Hok, Hct. cbv beta iota.
  rewrite Hvalid.
  apply String.eqb_neq in Hoctet. rewrite Hoctet.
  assert (Ht : JS.truthy (Some ct) = true).
  { destruct ct; [contradiction|reflexivity]. }
  now rewrite Ht.
Qed.

Definition html_page : Response :=
  mkResponse true 200 "OK" (Some "text/html; charset=utf-8")
             (Ok [x3c; x68; x74; x6d; x6c]).

Lemma foreign_content_type_refused_witness :
  fetchFromHttp (env_with s3_mapError (Throw NoSuchKey) (Ok html_page))
                "https://example.com/index.html" None start =
    (after_get (env_with s3_mapError (Throw NoSuchKey) (Ok html_page))
               "https://example.com/index.html" None start,
     Throw (Typed (mkError 415 "InvalidContentType"
                     "Invalid content type: text/html; charset=utf-8"))).
Proof.
  apply (foreign_content_type_refused _ _ None start html_page
           "text/html; charset=utf-8");
    try reflexivity; discriminate.
Defined.

(** X8. A successful response declared [binary/octet-stream], in any
    letter case and with blanks around, whose body has at least four
    bytes and none of the signatures, is refused with a 415
    [InvalidImage]. *)
Theorem unsigned_octet_stream_refused (env : Env) (url : string)
    (headers : option Headers) (w : World) (response : Response)
    (ct : string) (body : Buffer.t) :
  http_fetch env url (fetchHeaders headers) = Ok response ->
  ok response = true ->
  content_type response = Some ct ->
  JS.trim (JS.toLowerCase ct) = "binary/octet-stream" ->
  arrayBuffer response = Ok body ->
  4 <= List.length body ->
  signature body = None ->
  fetchFromHttp env url headers w =
    (after_get env url headers w,
     Throw (Typed (mkError 415 "InvalidImage"
                     ("Invalid or corrupted Content-Type " ++ ct ++ " file")))).
Proof.
  intros Hfetch Hok Hct Hoctet Hbody Hlen Hsig. run_http.
  rewrite Hfetch. cbv beta iota. rewrite Hok, Hct. cbv beta iota.
  rewrite Hoctet, Hbody. unfold detectedFormat. rewrite (length_ltb_4 _ Hlen).
  assert (Hdet : detect body = None).
  { destruct body as [|b1 [|b2 [|b3 [|b4 rest]]]]; simpl in Hlen; try lia.
    now rewrite detect_signature. }
  rewrite Hdet. cbn. rewrite andb_false_r. cbn. now rewrite Hoctet.
Qed.

Definition blob : Response :=
  mkResponse true 200 "OK" (Some " Binary/Octet-Stream ") (Ok [x00; x01; x02; x03]).

Lemma unsigned_octet_stream_refused_witness :
  fetchFromHttp (env_with s3_mapError (Throw NoSuchKey) (Ok blob))
                "https://example.com/blob" None start =
    (after_get (env_with s3_mapError (Throw NoSuchKey) (Ok blob))
               "https://example.com/blob" None start,
     Throw (Typed (mkError 415 "InvalidImage"
              "Invalid or corrupted Content-Type  Binary/Octet-Stream  file"))).
Proof.
  apply (unsigned_octet_stream_refused _ _ None start blob
           " Binary/Octet-Stream " [x00; x01; x02; x03]);
    reflexivity.
Defined.

(** X9. What [fetchFromHttp] returns: the request was answered with a
    success that carried a content-type header; the body has at least
    four bytes.  The header is empty, and then no content type is
    returned with the body; or it is returned as it was declared and is
    [binary/octet-stream] with a body that carries a signature, or
    contains one of the listed image types. *)
Theorem http_success (env : Env) (url : string) (headers : option Headers)
    (w w' : World) (r : Fetched) :
  fetchFromHttp env url headers w = (w', Ok r) ->
  exists response ct,
    http_fetch env url (fetchHeaders headers) = Ok response /\
    ok response = true /\
    content_type response = Some ct /\
    arrayBuffer response = Ok (buffer r) /\
    4 <= List.length (buffer r) /\
    (ct = EmptyString /\ contentType r = None \/
     ct <> EmptyString /\ contentType r = Some ct /\
       (JS.trim (JS.toLowerCase ct) = "binary/octet-stream" /\
          signature (buffer r) <> None \/
        JS.trim (JS.toLowerCase ct) <> "binary/octet-stream" /\
          isValidImageContentType ct = true)) /\
    w' = after_get env url headers w.
Proof.
  run_http.
  destruct (http_fetch env url (fetchHeaders headers)) as [response|o] eqn:Hfetch;
    cbv beta iota.
  2:{ failed. }
  destruct (ok response) eqn:Hok; cbv beta iota; cbn [negb].
  2:{ cbn. discriminate. }
  destruct (content_type response) as [ct|] eqn:Hct; cbv beta iota.
  2:{ destruct (arrayBuffer response) as [body|o]; cbv beta iota.
      - unfold detectedFormat. destruct (List.length body <? 4)%nat; cbn;
          discriminate.
      - failed. }
  destruct (JS.truthy (Some ct) &&
            negb (JS.trim (JS.toLowerCase ct) =? "binary/octet-stream") &&
            negb (isValidImageContentType ct)) eqn:Hgate.
  { cbn. discriminate. }
  cbv beta iota.
  destruct (arrayBuffer response) as [body|o] eqn:Hbody; cbv beta iota.
  2:{ failed. }
  unfold detectedFormat.
  destruct (List.length body <? 4)%nat eqn:Hlen; cbv beta iota.
  { cbn. discriminate. }
  apply Nat.ltb_ge in Hlen.
  assert (Hdet : detect body = signature body).
  { destruct body as [|b1 [|b2 [|b3 [|b4 rest]]]]; simpl in Hlen; try lia.
    apply detect_signature. }
  unfold lower_trim.
  destruct ((JS.trim (JS.toLowerCase ct) =? "binary/octet-stream") &&
            negb (JS.truthy (detect body))) eqn:Hunsigned; cbv beta iota.
  { cbn. discriminate. }
  destruct (JS.truthy (Some ct)) eqn:Htruthy;
    intros H; injection H as <- <-; exists response, ct;
    cbn [buffer contentType]; repeat split; auto.
  - right. split; [intros ->; discriminate|]. split; [reflexivity|].
    destruct (String.eqb_spec (JS.trim (JS.toLowerCase ct)) "binary/octet-stream")
      as [E|N].
    + left. split; [exact E|]. rewrite <- Hdet.
      cbn [andb] in Hunsigned. apply negb_false_iff in Hunsigned.
      destruct (detect body); discriminate.
    + right. split; [exact N|]. cbn [negb andb] in Hgate.
      now apply negb_false_iff in Hgate.
  - left. destruct ct; [now split|discriminate Htruthy].
Qed.

Definition png_image : Response :=
  mkResponse true 200 "OK" (Some "image/png") (Ok [x89; x50; x4e; x47; x0d]).

Lemma http_success_witness :
  exists response ct,
    http_fetch (env_with s3_mapError (Throw NoSuchKey) (Ok png_image))
               "https://example.com/a.png" (fetchHeaders None) = Ok response /\
    ok response = true /\
    content_type response = Some ct /\
    arrayBuffer response = Ok [x89; x50; x4e; x47; x0d] /\
    4 <= 5 /\
    (ct = EmptyString /\ Some "image/png" = None \/
     ct <> EmptyString /\ Some "image/png" = Some ct /\
       (JS.trim (JS.toLowerCase ct) = "binary/octet-stream" /\
          signature [x89; x50; x4e; x47; x0d] <> None \/
        JS.trim (JS.toLowerCase ct) <> "binary/octet-stream" /\
          isValidImageContentType ct = true)) /\
    after_get (env_with s3_mapError (Throw NoSuchKey) (Ok png_image))
              "https://example.com/a.png" None start =
    after_get (env_with s3_mapError (Throw NoSuchKey) (Ok png_image))
              "https://example.com/a.png" None start.
Proof.
  exact (http_success (env_with s3_mapError (Throw NoSuchKey) (Ok png_image))
           "https://example.com/a.png" None start
           (after_get (env_with s3_mapError (Throw NoSuchKey) (Ok png_image))
                      "https://example.com/a.png" None start)
           (mkFetched [x89; x50; x4e; x47; x0d] (Some "image/png")) eq_refl).
Defined.

(** An empty content-type header passes every check of the HTTP path. *)
Example empty_content_type_passes :
  let untyped := mkResponse true 200 "OK" (Some "") (Ok [x00; x01; x02; x03]) in
  snd (fetchFromHttp (env_with s3_mapError (Throw NoSuchKey) (Ok untyped))
         "https://example.com/x" None start) =
  Ok (mkFetched [x00; x01; x02; x03] None).
Proof. reflexivity. Qed.

(** *** The object-store path *)

Ltac run_s3 :=
  unfold fetchFromS3, send, try_catch, bind, lift, modify, gets, ret, throw.

(** The input of the [GetObjectCommand]. *)
Definition commandInput (env : Env) (bucket key : string)
    (headers : option Headers) : list (string * string) :=
  match headers with
  | Some h => forwardHeaders env [("Bucket", bucket); ("Key", key)] h
  | None => [("Bucket", bucket); ("Key", key)]
  end.

(** The world once the object has been asked for. *)
Definition after_send (env : Env) (url bucket key : string)
    (headers : option Headers) (w : World) : World :=
  advance (latency env url)
    (emit (S3Get (commandInput env bucket key headers))
       (emit (Console ("Attempting to fetch from bucket: " ++ bucket
                       ++ " and key: " ++ key)) w)).

(** X10. When the URL parser refuses the URL with its error "Invalid S3
    URL format", [fetchFromS3] fails with a 400 [InvalidS3Url] of that
    message and leaves the world as it was: nothing is logged and no
    request is sent. *)
Theorem unparsable_s3_url (env : Env) (url : string)
    (headers : option Headers) (w : World) (o : JsError) :
  parseS3Url env url = Throw o ->
  instanceofError o = true ->
  message o = Some "Invalid S3 URL format" ->
  fetchFromS3 env url headers w =
    (w, Throw (Typed (mkError 400 "InvalidS3Url" "Invalid S3 URL format"))).
Proof.
  intros Hparse Herr Hmsg. run_s3. rewrite Hparse. cbn.
  now rewrite Herr, Hmsg.
Qed.

Lemma unparsable_s3_url_witness :
  fetchFromS3 (env_with s3_mapError (Throw NoSuchKey) (Throw AbortError))
              "https://s3.amazonaws.com/" None start =
    (start, Throw (Typed (mkError 400 "InvalidS3Url" "Invalid S3 URL format"))).
Proof.
  apply (unparsable_s3_url _ _ None start
           (mkJsError true (Some "Error") (Some "Invalid S3 URL format")
                      None false None None));
    reflexivity.
Defined.

(** X11. When the object store answers without a body, [fetchFromS3]
    fails with a 404 [ImageNotFound], "Image not found in S3", whatever
    the error translator knows. *)
Theorem missing_body (env : Env) (url bucket key : string)
    (headers : option Headers) (w : World) (response : GetObjectOutput) :
  parseS3Url env url = Ok (bucket, key) ->
  s3_send env (commandInput env bucket key headers) = Ok response ->
  Body response = None ->
  fetchFromS3 env url headers w =
    (after_send env url bucket key headers w,
     Throw (Typed (mkError 404 "ImageNotFound" "Image not found in S3"))).
Proof.
  intros Hparse Hsend Hbody. run_s3. rewrite Hparse. cbv beta iota.
  fold (commandInput env bucket key headers).
  rewrite Hsend. cbv beta iota. now rewrite Hbody.
Qed.

Definition bodiless : GetObjectOutput := mkGetObjectOutput None (Some "image/png").

Lemma missing_body_witness :
  fetchFromS3 (env_with s3_mapError (Ok bodiless) (Throw AbortError))
              "https://bucket.s3.amazonaws.com/key" None start =
    (after_send (env_with s3_mapError (Ok bodiless) (Throw AbortError))
                "https://bucket.s3.amazonaws.com/key" "bucket" "key" None start,
     Throw (Typed (mkError 404 "ImageNotFound" "Image not found in S3"))).
Proof.
  apply (missing_body _ _ "bucket" "key" None start bodiless); reflexivity.
Defined.

(** X12. What [fetchFromS3] returns: the URL was parsed, one
    [GetObjectCommand] was sent for its bucket and key, and the body of
    the answer is returned with the content type the object store
    declares, which this path checks in no way. *)
Theorem s3_success (env : Env) (url : string) (headers : option Headers)
    (w w' : World) (r : Fetched) :
  fetchFromS3 env url headers w = (w', Ok r) ->
  exists bucket key response,
    parseS3Url env url = Ok (bucket, key) /\
    s3_send env (commandInput env bucket key headers) = Ok response /\
    Body response = Some (Ok (buffer r)) /\
    contentType r = ContentType response /\
    w' = after_send env url bucket key headers w.
Proof.
  run_s3.
  destruct (parseS3Url env url) as [[bucket key]|o] eqn:Hparse; cbv beta iota.
  2:{ destruct (instanceof_Error (Untyped o) && _); discriminate. }
  fold (commandInput env bucket key headers).
  destruct (s3_send env (commandInput env bucket key headers))
    as [response|o] eqn:Hsend; cbv beta iota.
  2:{ destruct (instanceof_Error (Untyped o) && _); discriminate. }
  destruct (Body response) as [[body|o]|] eqn:Hbody; cbv beta iota.
  - intros H. injection H as <- <-. now exists bucket, key, response.
  - destruct (instanceof_Error (Untyped o) && _); discriminate.
  - cbn. discriminate.
Qed.

Definition any_object : GetObjectOutput :=
  mkGetObjectOutput (Some (Ok [x25; x50; x44; x46; x2d])) (Some "application/pdf").

Lemma s3_success_witness :
  exists bucket key response,
    parseS3Url (env_with s3_mapError (Ok any_object) (Throw AbortError))
               "https://bucket.s3.amazonaws.com/key" = Ok (bucket, key) /\
    s3_send (env_with s3_mapError (Ok any_object) (Throw AbortError))
            (commandInput (env_with s3_mapError (Ok any_object) (Throw AbortError))
                          bucket key None) = Ok response /\
    Body response = Some (Ok [x25; x50; x44; x46; x2d]) /\
    Some "application/pdf" = ContentType response /\
    after_send (env_with s3_mapError (Ok any_object) (Throw AbortError))
               "https://bucket.s3.amazonaws.com/key" "bucket" "key" None start =
    after_send (env_with s3_mapError (Ok any_object) (Throw AbortError))
               "https://bucket.s3.amazonaws.com/key" bucket key None start.
Proof.
  exact (s3_success (env_with s3_mapError (Ok any_object) (Throw AbortError))
           "https://bucket.s3.amazonaws.com/key" None start
           (after_send (env_with s3_mapError (Ok any_object) (Throw AbortError))
                       "https://bucket.s3.amazonaws.com/key" "bucket" "key" None start)
           (mkFetched [x25; x50; x44; x46; x2d] (Some "application/pdf")) eq_refl).
Defined.

(** *** What a call does to the world *)

Definition is_log (e : Event) : bool :=
  match e with Log _ => true | _ => false end.

(** The events of a fetch path: none, or the console line and the
    request of the object-store path, or the request of the HTTP path. *)
Definition origin_events (env : Env) (url : string) (headers : option Headers)
    (evs : list Event) : Prop :=
  evs = [] \/
  (isS3Url env url = true /\ exists line input, evs = [Console line; S3Get input]) \/
  (isS3Url env url = false /\ evs = [HttpGet url (fetchHeaders headers)]).

Lemma fetchFromS3_events (env : Env) (url : string) (headers : option Headers)
    (w : World) :
  events (fst (fetchFromS3 env url headers w)) = events w \/
  exists line input,
    events (fst (fetchFromS3 env url headers w)) =
      (events w ++ [Console line; S3Get input])%list.
Proof.
  run_s3.
  destruct (parseS3Url env url) as [[bucket key]|o]; cbv beta iota.
  2:{ left. now destruct (instanceof_Error (Untyped o) && _). }
  right. eexists. exists (commandInput env bucket key headers).
  fold (commandInput env bucket key headers).
  destruct (s3_send env (commandInput env bucket key headers)) as [response|o];
    cbv beta iota.
  - destruct (Body response) as [[body|o]|]; cbv beta iota;
      try destruct (instanceof_Error (Untyped o) && _);
      cbn; now rewrite <- app_assoc.
  - destruct (instanceof_Error (Untyped o) && _); cbn; now rewrite <- app_assoc.
Qed.

Ltac thrown :=
  cbv beta iota;
  repeat match goal with
         | |- context [is_AbortError ?e] => destruct (is_AbortError e)
         end;
  reflexivity.

Lemma fetchFromHttp_events (env : Env) (url : string) (headers : option Headers)
    (w : World) :
  events (fst (fetchFromHttp env url headers w)) =
    (events w ++ [HttpGet url (fetchHeaders headers)])%list.
Proof.
  run_http.
  destruct (http_fetch env url (fetchHeaders headers)) as [response|o];
    [|thrown].
  cbv beta iota. destruct (ok response); cbn [negb]; [|thrown].
  cbv beta iota.
  destruct (content_type response) as [ct|]; cbv beta iota.
  - destruct (JS.truthy (Some ct) && _ && _); [thrown|].
    cbv beta iota.
    destruct (arrayBuffer response) as [body|o]; [|thrown].
    cbv beta iota. destruct (detectedFormat body) as [detected|e]; [|thrown].
    cbv beta iota. unfold lower_trim. cbv beta iota.
    destruct ((_ =? "binary/octet-stream") && negb (JS.truthy detected));
      thrown.
  - destruct (arrayBuffer response) as [body|o]; [|thrown].
    cbv beta iota. destruct (detectedFormat body) as [detected|e]; thrown.
Qed.

Lemma fetchByOrigin_events (env : Env) (url : string) (headers : option Headers)
    (w : World) :
  exists evs,
    events (fst (fetchByOrigin env url headers w)) = (events w ++ evs)%list /\
    origin_events env url headers evs.
Proof.
  unfold fetchByOrigin, origin_events.
  destruct (isS3Url env url) eqn:Hs3.
  - destruct (fetchFromS3_events env url headers w) as [E|(line & input & E)].
    + exists []. rewrite app_nil_r. auto.
    + exists [Console line; S3Get input]. split; [exact E|].
      right. left. eauto.
  - destruct (JS.startsWith url "http://" || JS.startsWith url "https://").
    + destruct (validate env url).
      * exists []. rewrite app_nil_r. auto.
      * exists [HttpGet url (fetchHeaders headers)].
        split; [apply fetchFromHttp_events|auto].
    + exists []. rewrite app_nil_r. auto.
Qed.

(** The record [fetchImage] logs for a body of [sizeBytes] bytes that
    was declared as [declared]. *)
Definition logged (env : Env) (url : string) (requestId : option string)
    (declared : option string) (sizeBytes : nat) (duration : Z) : LogRecord :=
  mkLog (match requestId with
         | Some id => if id =? "" then "unknown" else id
         | None => "unknown"
         end)
        "OriginFetcher" "image_fetched"
        (if isS3Url env url then "s3" else "http")
        (sanitizeUrl env url) declared sizeBytes duration.

Lemma fetchImage_events (env : Env) (url : string) (headers : option Headers)
    (requestId : option string) (w : World) :
  exists evs,
    origin_events env url headers evs /\
    match fetchImage env url headers requestId w with
    | (w', Ok r) =>
        exists w1 declared,
          fetchByOrigin env url headers w =
            (w1, Ok (mkFetched (result_buffer r) declared)) /\
          events w1 = (events w ++ evs)%list /\
          events w' =
            (events w1 ++
             [Log (logged env url requestId declared
                          (List.length (result_buffer r))
                          (clock w1 - clock w))])%list
    | (w', Throw _) => events w' = (events w ++ evs)%list
    end.
Proof.
  destruct (fetchByOrigin_events env url headers w) as (evs & Hev & Hshape).
  exists evs. split; [exact Hshape|].
  unfold fetchImage, Date_now, bind, lift, modify, gets, ret.
  destruct (fetchByOrigin env url headers w) as [w1 [[body declared]|e]];
    cbn [fst] in Hev; [|exact Hev].
  cbn [buffer contentType].
  destruct (validateImageMagicNumbers body declared) as [[]|e] eqn:Hv;
    [|exact Hev].
  unfold detectedFormat.
  destruct (List.length body <? 4)%nat eqn:Hlen.
  - unfold validateImageMagicNumbers in Hv. rewrite Hlen in Hv. discriminate.
  - cbn. exists w1, declared. repeat split; [exact Hev|].
    unfold logged. now destruct requestId as [[|c id]|].
Qed.

Lemma origin_events_network (env : Env) (url : string)
    (headers : option Headers) (evs : list Event) :
  origin_events env url headers evs ->
  filter is_log evs = [] /\
  (filter is_network evs = [] \/
   (isS3Url env url = true /\ exists input, filter is_network evs = [S3Get input]) \/
   (isS3Url env url = false /\
    filter is_network evs = [HttpGet url (fetchHeaders headers)])).
Proof.
  intros [->|[(Hs3 & line & input & ->)|(Hs3 & ->)]]; cbn; split; auto.
  - right. left. eauto.
Qed.

(** X13. A call of [fetchImage] sends at most one request and never
    tries again: nothing, or one [GetObjectCommand] when the classifier
    takes the URL for the object store, or one GET of the URL, with the
    caller's headers merged over the fixed [User-Agent], when it does
    not. *)
Theorem at_most_one_request (env : Env) (url : string)
    (headers : option Headers) (requestId : option string) (w : World) :
  exists evs,
    events (fst (fetchImage env url headers requestId w)) = (events w ++ evs)%list /\
    (filter is_network evs = [] \/
     (isS3Url env url = true /\ exists input, filter is_network evs = [S3Get input]) \/
     (isS3Url env url = false /\
      filter is_network evs = [HttpGet url (fetchHeaders headers)])).
Proof.
  destruct (fetchImage_events env url headers requestId w) as (evs & Hshape & H).
  apply origin_events_network in Hshape as [_ Hnet].
  destruct (fetchImage env url headers requestId w) as [w' [r|e]]; cbn [fst].
  - destruct H as (w1 & declared & _ & Hev & H).
    exists (evs ++ [Log (logged env url requestId declared
                                (List.length (result_buffer r))
                                (clock w1 - clock w))])%list.
    split; [now rewrite H, Hev, <- app_assoc|].
    rewrite filter_app. cbn. now rewrite app_nil_r.
  - now exists evs.
Qed.

(** X14. A successful [fetchImage] logs one record, after everything
    else it does.  The record holds: the request id, or "unknown" when
    there is none or an empty one; the component [OriginFetcher] and the
    operation [image_fetched]; [s3] or [http] as the classifier says; the
    sanitized URL; the content type that the fetch path returned with
    the body; the length of the body; the time on the clock since the
    call began.  A failing call logs no record. *)
Theorem one_record_per_success (env : Env) (url : string)
    (headers : option Headers) (requestId : option string) (w w' : World) :
  (forall r, fetchImage env url headers requestId w = (w', Ok r) ->
     exists w1 declared,
       fetchByOrigin env url headers w =
         (w1, Ok (mkFetched (result_buffer r) declared)) /\
       filter is_log (events w1) = filter is_log (events w) /\
       events w' =
         (events w1 ++
          [Log (mkLog (match requestId with
                       | Some id => if id =? "" then "unknown" else id
                       | None => "unknown"
                       end)
                      "OriginFetcher" "image_fetched"
                      (if isS3Url env url then "s3" else "http")
                      (sanitizeUrl env url)
                      declared
                      (List.length (result_buffer r))
                      (clock w' - clock w))])%list) /\
  (forall e, fetchImage env url headers requestId w = (w', Throw e) ->
     filter is_log (events w') = filter is_log (events w)).
Proof.
  destruct (fetchImage_events env url headers requestId w) as (evs & Hshape & H).
  apply origin_events_network in Hshape as [Hlog _].
  split; intros x Hrun.
  - assert (Hclock : exists w1 declared,
              fetchByOrigin env url headers w =
                (w1, Ok (mkFetched (result_buffer x) declared)) /\
              clock w' = clock w1).
    { revert Hrun.
      unfold fetchImage, Date_now, bind, lift, modify, gets, ret.
      destruct (fetchByOrigin env url headers w) as [w1 [[body declared]|e]];
        [|discriminate].
      cbn [buffer contentType].
      destruct (validateImageMagicNumbers body declared); [|discriminate].
      destruct (detectedFormat body); [|discriminate].
      intros [= <- <-]. now exists w1, declared. }
    rewrite Hrun in H.
    destruct H as (w1 & declared & Hfetch & Hev & Hlast).
    destruct Hclock as (w2 & declared2 & Hfetch2 & Hclock).
    rewrite Hfetch in Hfetch2. injection Hfetch2 as <- <-.
    exists w1, declared. split; [exact Hfetch|]. split.
    + rewrite Hev, filter_app, Hlog. apply app_nil_r.
    + rewrite Hlast, Hclock. reflexivity.
  - rewrite Hrun in H. rewrite H, filter_app, Hlog. apply app_nil_r.
Qed.

Lemma one_record_per_success_witness :
  let env := example_env jpeg_object (untyped_response []) in
  let run := fetchImage env "https://bucket.s3.amazonaws.com/key?v=1" None
                        (Some "req-1") start in
  let failing := fetchImage env "https://example.com/a.jpg" None None start in
  (exists w1 declared,
     fetchByOrigin env "https://bucket.s3.amazonaws.com/key?v=1" None start =
       (w1, Ok (mkFetched [xff; xd8; xff; xe0] declared)) /\
     filter is_log (events w1) = filter is_log (events start) /\
     events (fst run) =
       (events w1 ++
        [Log (mkLog "req-1" "OriginFetcher" "image_fetched" "s3"
                    "https://bucket.s3.amazonaws.com/key" declared 4
                    (clock (fst run) - clock start))])%list) /\
  filter is_log (events (fst failing)) = filter is_log (events start).
Proof.
  cbv zeta. split.
  - exact (proj1 (one_record_per_success
                    (example_env jpeg_object (untyped_response []))
                    "https://bucket.s3.amazonaws.com/key?v=1" None (Some "req-1")
                    start
                    (fst (fetchImage (example_env jpeg_object (untyped_response []))
                            "https://bucket.s3.amazonaws.com/key?v=1" None
                            (Some "req-1") start)))
                 jpeg_result eq_refl).
  - exact (proj2 (one_record_per_success
                    (example_env jpeg_object (untyped_response []))
                    "https://example.com/a.jpg" None None start
                    (fst (fetchImage (example_env jpeg_object (untyped_response []))
                            "https://example.com/a.jpg" None None start)))
                 _ eq_refl).
Defined.

(** The record of that run: the declared type [image/jpeg], 25 ms. *)
Example logged_record :
  events (fst (fetchImage (example_env jpeg_object (untyped_response []))
                 "https://bucket.s3.amazonaws.com/key?v=1" None (Some "req-1")
                 start)) =
  [ Console "Attempting to fetch from bucket: bucket and key: key";
    S3Get [("Bucket", "bucket"); ("Key", "key")];
    Log (mkLog "req-1" "OriginFetcher" "image_fetched" "s3"
               "https://bucket.s3.amazonaws.com/key" (Some "image/jpeg") 4 25) ].
Proof. reflexivity. Qed.

(** X15. Every failure of [fetchImage] is an [ImageProcessingError]:
    what the validator, the parser, the clients or the runtime threw does
    not reach the caller as it was. *)
Theorem failures_are_typed (env : Env) (url : string)
    (headers : option Headers) (requestId : option string) (w w' : World)
    (error : Thrown) :
  fetchImage env url headers requestId w = (w', Throw error) ->
  exists e, error = Typed e.
Proof.
  assert (Hs3 : forall w1 x, fetchFromS3 env url headers w = (w1, Throw x) ->
                             exists e, x = Typed e).
  { run_s3. intros w1 x.
    destruct (parseS3Url env url) as [[bucket key]|o]; cbv beta iota.
    2:{ destruct (instanceof_Error (Untyped o) && _); intros [= _ <-]; eauto. }
    destruct (s3_send env _) as [response|o]; cbv beta iota.
    2:{ destruct (instanceof_Error (Untyped o) && _); intros [= _ <-]; eauto. }
    destruct (Body response) as [[body|o]|]; cbv beta iota.
    - discriminate.
    - destruct (instanceof_Error (Untyped o) && _); intros [= _ <-]; eauto.
    - cbn. intros [= _ <-]; eauto. }
  assert (Hhttp : forall w1 x, fetchFromHttp env url headers w = (w1, Throw x) ->
                               exists e, x = Typed e).
  { unfold fetchFromHttp, try_catch. intros w1 x.
    destruct (bind _ _ w) as [w2 [r|e0]]; [discriminate|].
    unfold throw. destruct (is_AbortError e0); intros [= _ <-]; eauto. }
  unfold fetchImage, Date_now, bind, lift, modify, gets, ret.
  destruct (fetchByOrigin env url headers w) as [w1 [[body declared]|x]] eqn:Hrun.
  - cbn [buffer contentType].
    unfold validateImageMagicNumbers, detectedFormat.
    destruct (List.length body <? 4)%nat; [intros [= _ <-]; eauto|].
    destruct declared as [ct|]; [|discriminate].
    destruct (JS.truthy (Some ct)); [|discriminate].
    destruct (JS.get contentTypeToFormat (JS.toLowerCase ct)) as [v|shown|];
      [destruct (JS.truthy (Some v))| |];
      try discriminate;
      destruct (negb (JS.truthy (detect body)));
      try discriminate; intros [= _ <-]; eauto.
  - intros [= _ <-]. unfold fetchByOrigin in Hrun.
    destruct (isS3Url env url); [eapply Hs3; eauto|].
    destruct (JS.startsWith url "http://" || JS.startsWith url "https://").
    + destruct (validate env url); [|eapply Hhttp; eauto].
      inversion Hrun. eauto.
    + inversion Hrun. eauto.
Qed.

Definition reset : JsError :=
  mkJsError true (Some "Error") (Some "socket hang up") None false None
            (Some "ECONNRESET").

Lemma failures_are_typed_witness :
  exists e,
    Typed (mkError 500 "FetchError"
      "Failed to fetch image from https://example.com/a.jpg: socket hang up")
    = Typed e.
Proof.
  exact (failures_are_typed
           (env_with s3_mapError (Throw NoSuchKey) (Throw reset))
           "https://example.com/a.jpg" None None start
           (after_get (env_with s3_mapError (Throw NoSuchKey) (Throw reset))
                      "https://example.com/a.jpg" None start)
           _ eq_refl).
Defined.

(** X16. A URL that the classifier does not take for the object store,
    that starts with [http://] or [https://] and that the validator
    refuses with an error, makes [fetchImage] fail with a 400
    [InvalidUrl] of the validator's message; no request is sent. *)
Theorem refused_url (env : Env) (url : string) (headers : option Headers)
    (requestId : option string) (w : World) (error : JsError) (text : string) :
  isS3Url env url = false ->
  (exists rest, url = "http://" ++ rest) \/ (exists rest, url = "https://" ++ rest) ->
  validate env url = Some error ->
  instanceofError error = true ->
  message error = Some text ->
  fetchImage env url headers requestId w =
    (w, Throw (Typed (mkError 400 "InvalidUrl" text))).
Proof.
  intros Hs3 Hscheme Hvalid Herr Hmsg.
  assert (E : JS.startsWith url "http://" || JS.startsWith url "https://" = true).
  { apply orb_true_iff.
    destruct Hscheme as [H|H]; [left|right]; now apply startsWith_iff. }
  unfold fetchImage, fetchByOrigin, Date_now, bind, gets, throw.
  now rewrite Hs3, E, Hvalid, Herr, Hmsg.
Qed.

Lemma refused_url_witness :
  fetchImage (example_env jpeg_object (untyped_response []))
             "http://example.com/image.jpg" None None start =
    (start, Throw (Typed (mkError 400 "InvalidUrl" "HTTP protocol not allowed"))).
Proof.
  apply (refused_url _ _ None None start
           (mkJsError true (Some "Error") (Some "HTTP protocol not allowed")
                      None false None None));
    try reflexivity.
  left. exists "example.com/image.jpg". reflexivity.
Defined.

(** *** Headers *)

Lemma In_set (o : list (string * string)) (k v k' v' : string) :
  In (k', v') (set o k v) -> (k', v') = (k, v) \/ In (k', v') o.
Proof.
  induction o as [|[k0 v0] o IH]; simpl.
  - intros [H|[]]. now left.
  - destruct (k0 =? k); simpl.
    + intros [H|H]; [now left|right; now right].
    + intros [H|H]; [right; now left|].
      destruct (IH H); [now left|right; now right].
Qed.

Lemma own_set (o : list (string * string)) (k v k' : string) :
  JS.own (set o k v) k' = if k =? k' then Some v else JS.own o k'.
Proof.
  induction o as [|[k0 v0] o IH]; simpl.
  - reflexivity.
  - destruct (String.eqb_spec k0 k) as [->|Hne]; simpl.
    + now destruct (k =? k').
    + rewrite IH. destruct (String.eqb_spec k0 k') as [->|]; [|reflexivity].
      destruct (String.eqb_spec k k'); [congruence|reflexivity].
Qed.

(** A header the object-store path forwards. *)
Definition forwardable (name : string) : Prop :=
  (exists rest, JS.toLowerCase name = "x-amz-" ++ rest) \/
  (exists rest, JS.toLowerCase name = "if-" ++ rest).

(** X17. Every property of the command input that [forwardHeaders]
    builds was there before or comes from a caller's header whose
    lower-cased name starts with [x-amz-] or [if-], under the name the
    helper gives it and with the caller's value: no other header reaches
    the object store. *)
Theorem only_allowed_headers_forwarded (env : Env)
    (input : list (string * string)) (headers : Headers) (k v : string) :
  In (k, v) (forwardHeaders env input headers) ->
  In (k, v) input \/
  exists name, In (name, v) headers /\ forwardable name /\
               k = mapHeaderToS3Property env (JS.toLowerCase name).
Proof.
  revert input. induction headers as [|[name value] rest IH]; intros input.
  - now left.
  - cbn [forwardHeaders]. intros H.
    apply IH in H as [H|(n & Hin & Hf & Hk)].
    + destruct (JS.startsWith (JS.toLowerCase name) "x-amz-" ||
                JS.startsWith (JS.toLowerCase name) "if-") eqn:E.
      * apply In_set in H as [H|H]; [|now left].
        injection H as -> ->. right. exists name.
        split; [now left|]. split; [|reflexivity].
        apply orb_true_iff in E. unfold forwardable.
        destruct E as [E|E]; [left|right]; now apply startsWith_iff.
      * now left.
    + right. exists n. split; [now right|auto].
Qed.

Lemma only_allowed_headers_forwarded_witness :
  let env := example_env jpeg_object (untyped_response []) in
  In ("if-none-match", "abc") [("Bucket", "b"); ("Key", "k")] \/
  exists name,
    In (name, "abc") [("Cookie", "secret"); ("If-None-Match", "abc")] /\
    forwardable name /\
    "if-none-match" = mapHeaderToS3Property env (JS.toLowerCase name).
Proof.
  cbv zeta.
  apply (only_allowed_headers_forwarded
           (example_env jpeg_object (untyped_response []))
           [("Bucket", "b"); ("Key", "k")]
           [("Cookie", "secret"); ("If-None-Match", "abc")]).
  simpl. auto.
Defined.

Lemma own_fold_set (h : Headers) (o : list (string * string)) (k : string) :
  JS.own (fold_left (fun o kv => set o (fst kv) (snd kv)) h o) k =
  match JS.own (rev h) k with
  | Some v => Some v
  | None => JS.own o k
  end.
Proof.
  revert o. induction h as [|[k0 v0] h IH]; intros o; simpl; [reflexivity|].
  rewrite IH, own_set.
  assert (Hrev : forall l, JS.own (l ++ [(k0, v0)]) k =
                   match JS.own l k with
                   | Some v => Some v
                   | None => if k0 =? k then Some v0 else None
                   end).
  { induction l as [|[k1 v1] l IHl]; simpl; [reflexivity|].
    now destruct (k1 =? k). }
  rewrite Hrev.
  destruct (JS.own (rev h) k); [reflexivity|]. now destruct (k0 =? k).
Qed.

Lemma keys_set (o : list (string * string)) (k v k' : string) :
  In k' (map fst (set o k v)) -> k' = k \/ In k' (map fst o).
Proof.
  intros H. apply in_map_iff in H as ([k0 v0] & E & Hin). simpl in E. subst k0.
  apply In_set in Hin as [Hin|Hin].
  - injection Hin as -> _. now left.
  - right. now apply (in_map fst _ (k', v0)).
Qed.

(** An assignment keeps the keys of an object distinct. *)
Lemma NoDup_set (o : list (string * string)) (k v : string) :
  NoDup (map fst o) -> NoDup (map fst (set o k v)).
Proof.
  induction o as [|[k0 v0] o IH]; simpl; intros Hnd.
  - constructor; [intros []|constructor].
  - inversion Hnd as [|? ? Hk Ho]; subst.
    destruct (String.eqb_spec k0 k) as [->|Hne]; simpl.
    + now constructor.
    + constructor; [|now apply IH].
      intros H. apply keys_set in H as [H|H]; [congruence|contradiction].
Qed.

Lemma NoDup_fold_set (h : Headers) (o : list (string * string)) :
  NoDup (map fst o) ->
  NoDup (map fst (fold_left (fun o kv => set o (fst kv) (snd kv)) h o)).
Proof.
  revert o. induction h as [|[k v] h IH]; intros o Hnd; simpl; [exact Hnd|].
  apply IH. now apply NoDup_set.
Qed.

(** X18. The headers of the GET request: each header of the caller is
    sent with the caller's value; the fixed [User-Agent] is sent unless
    the caller has a header of exactly that name, which then replaces
    it; nothing else is sent. *)
Theorem sent_headers (h : Headers) (k : string) :
  JS.own (fetchHeaders (Some h)) k =
  match JS.own (rev h) k with
  | Some v => Some v
  | None => if k =? "User-Agent" then Some "DIT-v8-ImageProcessor/1.0" else None
  end.
Proof.
  unfold fetchHeaders. rewrite own_entries.
  - rewrite own_fold_set. cbn [JS.own]. now rewrite String.eqb_sym.
  - apply NoDup_fold_set. constructor; [intros []|constructor].
Qed.

(** A header named like an array index comes first in the object. *)
Example index_named_header_first :
  fetchHeaders (Some [("1", "one"); ("Accept", "image/*")]) =
    [("1", "one"); ("User-Agent", "DIT-v8-ImageProcessor/1.0");
     ("Accept", "image/*")].
Proof. reflexivity. Qed.

Example user_agent_overridden :
  fetchHeaders (Some [("Accept", "image/*"); ("User-Agent", "curl/8")]) =
    [("User-Agent", "curl/8"); ("Accept", "image/*")] /\
  fetchHeaders (Some [("user-agent", "curl/8")]) =
    [("User-Agent", "DIT-v8-ImageProcessor/1.0"); ("user-agent", "curl/8")] /\
  fetchHeaders None = [("User-Agent", "DIT-v8-ImageProcessor/1.0")].
Proof. repeat split. Qed.

(** *** The logged URL *)

(** X19. When the platform cannot parse the URL, the URL that is logged
    is the URL up to its first [?]: it holds no [?], and the URL is that
    text, alone or followed by [?] and a rest. *)
Theorem sanitized_without_query (env : Env) (url : string) :
  parseURL env url = None ->
  JS.includes (sanitizeUrl env url) "?" = false /\
  (sanitizeUrl env url = url \/
   exists rest, url = sanitizeUrl env url ++ "?" ++ rest).
Proof.
  intros H. unfold sanitizeUrl, before_query. rewrite H, split_hd.
  destruct (before_spec "?" url) as [Hcut Hfree]. split; [exact Hfree|].
  destruct Hcut as [E|[rest E]]; [now left|right; now exists rest].
Qed.

Lemma sanitized_without_query_witness :
  let env := example_env jpeg_object (untyped_response []) in
  JS.includes (sanitizeUrl env "https://h/a.jpg?token=s3cr3t?x") "?" = false /\
  (sanitizeUrl env "https://h/a.jpg?token=s3cr3t?x" = "https://h/a.jpg?token=s3cr3t?x" \/
   exists rest,
     "https://h/a.jpg?token=s3cr3t?x" =
     sanitizeUrl env "https://h/a.jpg?token=s3cr3t?x" ++ "?" ++ rest).
Proof.
  cbv zeta.
  apply (sanitized_without_query (example_env jpeg_object (untyped_response []))).
  reflexivity.
Defined.

End FetcherMore.

(* ===================================================================== *)
(** ** Further properties of ConnectionManager *)
(* ===================================================================== *)

Module ProbeMore.
Import ConnectionManager.
Import JSFacts.
Import ProbeProps.

(** *** Parameters of a content type *)

Lemma before_app (sep : ascii) (a b : string) :
  JS.includes a (String sep EmptyString) = false ->
  before sep (a ++ String sep b) = a.
Proof.
  induction a as [|c a IH]; simpl.
  - now rewrite Ascii.eqb_refl.
  - intros H. apply orb_false_iff in H as [H1 H2].
    rewrite andb_true_r in H1. rewrite H1. now rewrite IH.
Qed.

(** X20. What follows the first [;] of a content type has no part in
    the acceptance check: a type without [;] is accepted exactly when it
    is accepted with parameters added. *)
Theorem parameters_ignored (type params : string) :
  JS.includes type ";" = false ->
  (validateContentType (Some (type ++ ";" ++ params)) = Ok tt <->
   validateContentType (Some type) = Ok tt).
Proof.
  intros H.
  assert (Hm : media (type ++ ";" ++ params) = media type).
  { unfold media. change (";" ++ params) with (String ";" params).
    rewrite (before_app _ _ _ H).
    destruct (before_spec ";" type) as [[E|[rest E]] _]; [now rewrite E|].
    exfalso.
    assert (Hin : JS.includes type ";" = true).
    { apply includes_iff. exists (before ";" type), rest. exact E. }
    congruence. }
  rewrite !validateContentType_cases, Hm.
  destruct (JS.startsWith (media type) "image/" ||
            JS.startsWith (media type) "binary/octet-stream");
    split; auto; discriminate.
Qed.

Lemma parameters_ignored_witness :
  validateContentType (Some ("image/svg+xml" ++ ";" ++ " charset=utf-8")) = Ok tt <->
  validateContentType (Some "image/svg+xml") = Ok tt.
Proof. apply parameters_ignored. reflexivity. Defined.

(** *** Failure mapping of the object-store probe *)

Ltac run_probe :=
  unfold validateS3Origin, validateHttpOrigin, send, head,
    try_catch, bind, lift, modify, gets, ret, throw.

(** The input of the [HeadObjectCommand] and the state once it has been
    sent. *)
Definition commandInput (env : Env) (bucket key : string) (s : State)
    : list (string * string) :=
  match clientHeaders (request s) with
  | Some h => forwardHeaders env [("Bucket", bucket); ("Key", key)] h
  | None => [("Bucket", bucket); ("Key", key)]
  end.

Definition after_send (env : Env) (url bucket key : string) (s : State) : State :=
  advance (latency env url) (emit (S3Head (commandInput env bucket key s)) s).

(** The parser's own failure. *)
Definition is_format_error (o : JsError) : Prop :=
  instanceofError o = true /\ message o = Some "Invalid S3 URL format".

Lemma format_error_test (o : JsError) :
  ~ is_format_error o ->
  instanceofError o &&
  match message o with
  | Some m => m =? "Invalid S3 URL format"
  | None => false
  end = false.
Proof.
  intros H. destruct (instanceofError o) eqn:Hi; [|reflexivity].
  destruct (message o) as [m|] eqn:Hm; [|reflexivity].
  destruct (String.eqb_spec m "Invalid S3 URL format") as [->|]; [|reflexivity].
  exfalso. apply H. now split.
Qed.

(** X21. When the HEAD request to the object store fails,
    [validateS3Origin] fails with: 400 [INVALID_URL] for an error with
    the message "Invalid S3 URL format", whatever its status; otherwise
    404 [RESOURCE_NOT_FOUND] for the status 404, 403 [ACCESS_DENIED] for
    the status 403, and 502 [BAD_GATEWAY] for any other status or none.
    The request object is left as it was. *)
Theorem s3_probe_failure (env : Env) (url bucket key : string) (s : State)
    (o : JsError) :
  parseS3Url env url = Ok (bucket, key) ->
  s3_head env (commandInput env bucket key s) = Throw o ->
  exists e,
    validateS3Origin env url s =
      (after_send env url bucket key s, Throw (Typed e)) /\
    (is_format_error o -> kind e = (400%Z, "INVALID_URL")) /\
    (~ is_format_error o -> httpStatusCode o = Some 404%Z ->
       kind e = (404%Z, "RESOURCE_NOT_FOUND")) /\
    (~ is_format_error o -> httpStatusCode o = Some 403%Z ->
       kind e = (403%Z, "ACCESS_DENIED")) /\
    (~ is_format_error o ->
     (forall c, httpStatusCode o = Some c -> c <> 404%Z /\ c <> 403%Z) ->
       kind e = (502%Z, "BAD_GATEWAY") /\
       errMessage e = "S3 validation failed for " ++ url ++ ": " ++ render (message o)).
Proof.
  intros Hparse Hhead. exists (mapS3Error url (Untyped o)). split.
  { run_probe. rewrite Hparse. cbv beta iota.
    fold (commandInput env bucket key s). now rewrite Hhead. }
  unfold mapS3Error. repeat split.
  - intros [Hi Hm]. now rewrite Hi, Hm.
  - intros Hn Hc. now rewrite (format_error_test _ Hn), Hc.
  - intros Hn Hc. now rewrite (format_error_test _ Hn), Hc.
  - rewrite (format_error_test _ H).
    destruct (httpStatusCode o) as [c|]; [|reflexivity].
    destruct (H0 c eq_refl) as [N1 N2].
    apply Z.eqb_neq in N1, N2. now rewrite N1, N2.
  - rewrite (format_error_test _ H).
    destruct (httpStatusCode o) as [c|]; [|reflexivity].
    destruct (H0 c eq_refl) as [N1 N2].
    apply Z.eqb_neq in N1, N2. now rewrite N1, N2.
Qed.

Definition s3_error (text : string) (status : option Z) : JsError :=
  mkJsError true (Some "S3ServiceException") (Some text) status false None None.

Definition s3_probe_fails (o : JsError) (k : Z * string) : Prop :=
  exists e,
    validateS3Origin (example_env (Throw o) (Ok None))
                     "https://bucket.s3.amazonaws.com/key" start =
      (after_send (example_env (Throw o) (Ok None))
                  "https://bucket.s3.amazonaws.com/key" "bucket" "key" start,
       Throw (Typed e)) /\
    kind e = k.

Ltac s3_probe o :=
  destruct (s3_probe_failure (example_env (Throw o) (Ok None))
              "https://bucket.s3.amazonaws.com/key" "bucket" "key" start
              o eq_refl eq_refl)
    as (e & Hrun & Hformat & H404 & H403 & Hother);
  exists e; split; [exact Hrun|].

Ltac other_message := intros [_ Hm]; discriminate Hm.

Lemma s3_probe_failure_witness :
  s3_probe_fails (s3_error "Invalid S3 URL format" (Some 404%Z)) (400%Z, "INVALID_URL") /\
  s3_probe_fails (s3_error "NotFound" (Some 404%Z)) (404%Z, "RESOURCE_NOT_FOUND") /\
  s3_probe_fails (s3_error "Forbidden" (Some 403%Z)) (403%Z, "ACCESS_DENIED") /\
  s3_probe_fails (s3_error "SlowDown" (Some 503%Z)) (502%Z, "BAD_GATEWAY").
Proof.
  repeat split.
  - s3_probe (s3_error "Invalid S3 URL format" (Some 404%Z)).
    apply Hformat. split; reflexivity.
  - s3_probe (s3_error "NotFound" (Some 404%Z)).
    apply H404; [other_message|reflexivity].
  - s3_probe (s3_error "Forbidden" (Some 403%Z)).
    apply H403; [other_message|reflexivity].
  - s3_probe (s3_error "SlowDown" (Some 503%Z)).
    apply Hother; [other_message|].
    intros c Hc. injection Hc as <-. lia.
Defined.

(** *** The vocabulary of failures *)

Definition vocabulary : list (Z * string) :=
  [ (400%Z, "UNSUPPORTED_PROTOCOL"); (400%Z, "INVALID_URL");
    (400%Z, "INVALID_FORMAT"); (404%Z, "RESOURCE_NOT_FOUND");
    (404%Z, "HOST_NOT_FOUND"); (403%Z, "ACCESS_DENIED");
    (401%Z, "ACCESS_DENIED"); (408%Z, "REQUEST_TIMEOUT");
    (502%Z, "BAD_GATEWAY") ].

Lemma mapS3Error_vocabulary (url : string) (o : JsError) :
  In (kind (mapS3Error url (Untyped o))) vocabulary.
Proof.
  unfold mapS3Error.
  destruct (instanceofError o && _); [cbn; tauto|].
  destruct (match httpStatusCode o with Some c => (c =? 404)%Z | None => false end);
    [cbn; tauto|].
  destruct (match httpStatusCode o with Some c => (c =? 403)%Z | None => false end);
    cbn; tauto.
Qed.

Lemma mapHttpError_vocabulary (url : string) (o : JsError) :
  In (kind (mapHttpError url (Untyped o))) vocabulary.
Proof.
  unfold mapHttpError.
  destruct (isAxiosError o); [|cbn; tauto].
  assert (Hnet : forall e : ConnectionError,
            In (kind e) vocabulary ->
            In (kind (if code_is o "ECONNABORTED"
                      then mkError "Origin timeout"
                             ("Origin validation timeout after 5000ms for URL: " ++ url)
                             408 "REQUEST_TIMEOUT"
                      else if code_is o "ENOTFOUND"
                      then mkError "Unable to resolve host"
                             ("Unable to resolve host for " ++ url)
                             404 "HOST_NOT_FOUND"
                      else if code_is o "CERT_UNTRUSTED" ||
                              code_is o "UNABLE_TO_VERIFY_LEAF_SIGNATURE"
                      then mkError "TLS certificate error"
                             ("TLS certificate validation failed for " ++ url
                              ++ ": " ++ render (message o))
                             403 "ACCESS_DENIED"
                      else e)) vocabulary).
  { intros e He.
    destruct (code_is o "ECONNABORTED"); [cbn; tauto|].
    destruct (code_is o "ENOTFOUND"); [cbn; tauto|].
    destruct (code_is o "CERT_UNTRUSTED" ||
              code_is o "UNABLE_TO_VERIFY_LEAF_SIGNATURE"); [cbn; tauto|exact He]. }
  destruct (response_status o) as [status|].
  - destruct (Z.eqb_spec status 404); [cbn; tauto|].
    destruct (Z.eqb_spec status 403) as [->|]; [cbn; tauto|].
    destruct (Z.eqb_spec status 401) as [->|]; [cbn; tauto|].
    cbn [orb]. destruct (status >=? 500)%Z; [cbn; tauto|].
    apply Hnet. cbn. tauto.
  - apply Hnet. cbn. tauto.
Qed.

Lemma validateS3Origin_failure (env : Env) (url : string) (s s' : State)
    (x : Thrown) :
  validateS3Origin env url s = (s', Throw x) ->
  exists e, x = Typed e /\ In (kind e) vocabulary.
Proof.
  run_probe.
  destruct (parseS3Url env url) as [[bucket key]|o]; cbv beta iota.
  2:{ intros [= _ <-]. eexists. split; [reflexivity|apply mapS3Error_vocabulary]. }
  destruct (s3_head env _) as [contentType|o]; cbv beta iota.
  2:{ intros [= _ <-]. eexists. split; [reflexivity|apply mapS3Error_vocabulary]. }
  unfold validateContentType.
  destruct (negb _ && negb _); cbv beta iota; [|discriminate].
  intros [= _ <-]. eexists. split; [reflexivity|]. cbn. tauto.
Qed.

Lemma validateHttpOrigin_failure (env : Env) (url : string) (s s' : State)
    (x : Thrown) :
  validateHttpOrigin env url s = (s', Throw x) ->
  exists e, x = Typed e /\ In (kind e) vocabulary.
Proof.
  run_probe.
  destruct (axios_head env url _) as [contentType|o]; cbv beta iota.
  2:{ intros [= _ <-]. eexists. split; [reflexivity|apply mapHttpError_vocabulary]. }
  unfold validateContentType.
  destruct (negb _ && negb _); cbv beta iota; [|discriminate].
  intros [= _ <-]. eexists. split; [reflexivity|]. cbn. tauto.
Qed.

(** X22. Every failure of [validateOriginUrl] is a [ConnectionError],
    and its status and kind are one of nine pairs: 400 with
    [UNSUPPORTED_PROTOCOL], [INVALID_URL] or [INVALID_FORMAT]; 404 with
    [RESOURCE_NOT_FOUND] or [HOST_NOT_FOUND]; 403 or 401 with
    [ACCESS_DENIED]; 408 with [REQUEST_TIMEOUT]; 502 with
    [BAD_GATEWAY]. *)
Theorem failure_vocabulary (env : Env) (url : string) (s s' : State)
    (x : Thrown) :
  validateOriginUrl env url s = (s', Throw x) ->
  exists e, x = Typed e /\ In (kind e) vocabulary.
Proof.
  unfold validateOriginUrl, validateOriginHeaders, Date_now, bind, gets, throw, ret.
  destruct (validate env url) as [error|].
  { intros [= _ <-]. eexists. split; [reflexivity|].
    unfold urlValidationFailed.
    destruct (JS.includes _ "protocol"); cbn; tauto. }
  destruct (isS3Url env url).
  - destruct (validateS3Origin env url s) as [s1 [[]|x1]] eqn:Hrun.
    + destruct (has_timing_slot (request s1)); discriminate.
    + intros [= _ <-]. eapply validateS3Origin_failure; eauto.
  - destruct (validateHttpOrigin env url s) as [s1 [[]|x1]] eqn:Hrun.
    + destruct (has_timing_slot (request s1)); discriminate.
    + intros [= _ <-]. eapply validateHttpOrigin_failure; eauto.
Qed.

Definition teapot : JsError :=
  mkJsError true (Some "AxiosError") (Some "Request failed with status code 418")
            None true (Some 418%Z) (Some "ERR_BAD_REQUEST").

Lemma failure_vocabulary_witness :
  exists e,
    Typed (mkError "Origin validation failed"
      "Origin validation failed for https://example.com/tea: Request failed with status code 418"
      502 "BAD_GATEWAY") = Typed e /\
    In (kind e) vocabulary.
Proof.
  exact (failure_vocabulary (example_env (Ok None) (Throw teapot))
           "https://example.com/tea" start
           (after_head (example_env (Ok None) (Throw teapot))
                       "https://example.com/tea" start)
           _ eq_refl).
Defined.

(** *** What a probe does to the world *)

Lemma validateS3Origin_events (env : Env) (url : string) (s : State) :
  (events (fst (validateS3Origin env url s)) = events s /\
   exists o, parseS3Url env url = Throw o) \/
  exists input, events (fst (validateS3Origin env url s)) = (events s ++ [S3Head input])%list.
Proof.
  run_probe.
  destruct (parseS3Url env url) as [[bucket key]|o]; cbv beta iota.
  2:{ left. split; [reflexivity|now exists o]. }
  right. exists (commandInput env bucket key s).
  fold (commandInput env bucket key s).
  destruct (s3_head env (commandInput env bucket key s)) as [contentType|o];
    cbv beta iota; [|reflexivity].
  now destruct (validateContentType contentType) as [[]|e].
Qed.

Lemma validateHttpOrigin_events (env : Env) (url : string) (s : State) :
  events (fst (validateHttpOrigin env url s)) =
    (events s ++ [HttpHead url (probe_headers s)])%list.
Proof.
  run_probe. fold (probe_headers s).
  destruct (axios_head env url (probe_headers s)) as [contentType|o];
    cbv beta iota; [|reflexivity].
  now destruct (validateContentType contentType) as [[]|e].
Qed.

(** X23. A call of [validateOriginUrl] sends at most one probe and
    never tries again: a HEAD of the object when the classifier takes the
    URL for the object store, a HEAD of the URL with the caller's headers
    as they are when it does not.  It sends none when the validator
    refuses the URL. *)
Theorem at_most_one_probe (env : Env) (url : string) (s : State) :
  exists evs,
    events (fst (validateOriginUrl env url s)) = (events s ++ evs)%list /\
    (evs = [] \/
     (isS3Url env url = true /\ exists input, evs = [S3Head input]) \/
     (isS3Url env url = false /\ evs = [HttpHead url (probe_headers s)])) /\
    (validate env url <> None -> evs = []).
Proof.
  unfold validateOriginUrl, validateOriginHeaders, Date_now, bind, gets, throw, ret.
  destruct (validate env url) as [error|].
  { exists []. cbn. rewrite app_nil_r. auto. }
  destruct (isS3Url env url) eqn:Hs3.
  - pose proof (validateS3Origin_events env url s) as Hev.
    destruct (validateS3Origin env url s) as [s1 r]. cbn [fst] in Hev.
    destruct Hev as [[Hev _]|[input Hev]].
    + exists []. rewrite app_nil_r.
      split; [|split; [now left|congruence]].
      destruct r as [[]|e]; [|exact Hev].
      destruct (has_timing_slot (request s1)); exact Hev.
    + exists [S3Head input].
      split; [|split; [right; left; eauto|congruence]].
      destruct r as [[]|e]; [|exact Hev].
      destruct (has_timing_slot (request s1)); exact Hev.
  - pose proof (validateHttpOrigin_events env url s) as Hev.
    destruct (validateHttpOrigin env url s) as [s1 r]. cbn [fst] in Hev.
    exists [HttpHead url (probe_headers s)].
    split; [|split; [right; right; auto|congruence]].
    destruct r as [[]|e]; [|exact Hev].
    destruct (has_timing_slot (request s1)); exact Hev.
Qed.

Lemma at_most_one_probe_witness :
  events (fst (validateOriginUrl png_origin "http://example.com/a.png" start)) =
  events start.
Proof.
  destruct (at_most_one_probe png_origin "http://example.com/a.png" start)
    as (evs & Hev & _ & Hnone).
  rewrite Hev, Hnone; [apply app_nil_r|discriminate].
Defined.

(** *** A successful probe *)

(** The content type the origin of the URL declares to the probe. *)
Definition declares (env : Env) (url : string) (s : State)
    (contentType : option string) : Prop :=
  if isS3Url env url
  then exists bucket key,
         parseS3Url env url = Ok (bucket, key) /\
         s3_head env (commandInput env bucket key s) = Ok contentType
  else axios_head env url (probe_headers s) = Ok contentType.

Lemma successful_headers (env : Env) (url : string) (s s1 : State) :
  validateOriginHeaders env url s = (s1, Ok tt) ->
  exists contentType,
    declares env url s contentType /\
    validateContentType contentType = Ok tt /\
    request s1 = mkRequest (clientHeaders (request s)) contentType
                           (timings (request s)) /\
    clock s1 = (clock s + latency env url)%Z.
Proof.
  unfold validateOriginHeaders, declares.
  destruct (isS3Url env url).
  - run_probe.
    destruct (parseS3Url env url) as [[bucket key]|o]; cbv beta iota;
      [|discriminate].
    fold (commandInput env bucket key s).
    destruct (s3_head env (commandInput env bucket key s)) as [contentType|o]
      eqn:Hhead; cbv beta iota; [|discriminate].
    destruct (validateContentType contentType) as [[]|e] eqn:Hacc;
      cbv beta iota; [|discriminate].
    intros [= <-]. exists contentType.
    split; [exists bucket, key; split; [reflexivity|exact Hhead]|].
    repeat split; try reflexivity; exact Hacc.
  - run_probe. fold (probe_headers s).
    destruct (axios_head env url (probe_headers s)) as [contentType|o]
      eqn:Hhead; cbv beta iota; [|discriminate].
    destruct (validateContentType contentType) as [[]|e] eqn:Hacc;
      cbv beta iota; [|discriminate].
    intros [= <-]. exists contentType.
    repeat split; try reflexivity; assumption.
Qed.

(** X24. When [validateOriginUrl] returns, the request holds the
    content type the origin declared, which the acceptance check has
    passed; its headers are as they were; its timing slot, when the
    caller had prepared one, holds the time the call took, and is still
    absent when the caller had not. *)
Theorem successful_probe (env : Env) (url : string) (s s' : State) :
  validateOriginUrl env url s = (s', Ok tt) ->
  exists contentType,
    declares env url s contentType /\
    validateContentType contentType = Ok tt /\
    clientHeaders (request s') = clientHeaders (request s) /\
    sourceImageContentType (request s') = contentType /\
    timings (request s') =
      (if has_timing_slot (request s)
       then Some (mkTimings (Some (mkRequestResolution (Some (clock s' - clock s)%Z))))
       else timings (request s)).
Proof.
  unfold validateOriginUrl, Date_now, bind, gets, modify, throw, ret.
  destruct (validate env url) as [error|]; [discriminate|].
  destruct (validateOriginHeaders env url s) as [s1 [[]|e]] eqn:Hh;
    [|discriminate].
  apply successful_headers in Hh as (contentType & Hdecl & Hacc & Hreq & Hclock).
  assert (Hslot : has_timing_slot (request s1) = has_timing_slot (request s))
    by now rewrite Hreq.
  rewrite Hslot.
  destruct (has_timing_slot (request s)); intros [= <-]; exists contentType;
    cbn; rewrite ?Hreq; repeat split; auto.
Qed.

Lemma successful_probe_witness :
  exists contentType,
    declares png_origin "https://example.com/a.png" start contentType /\
    validateContentType contentType = Ok tt /\
    Some [("Accept", "image/*")] = clientHeaders prepared /\
    Some "image/png" = contentType /\
    Some (mkTimings (Some (mkRequestResolution (Some 40%Z)))) =
      Some (mkTimings (Some (mkRequestResolution (Some (5040 - 5000)%Z)))).
Proof.
  exact (successful_probe png_origin "https://example.com/a.png" start
           (fst (validateOriginUrl png_origin "https://example.com/a.png" start))
           eq_refl).
Defined.

(** *** The two classes forward the same headers *)

(** X25. For the same helper, the probe and the fetcher build the same
    command input from the same headers: what the HEAD request asks for
    is what the GET request asks for. *)
Theorem same_command_input (probe : Env) (fetcher : OriginFetcher.Env)
    (input : list (string * string)) (headers : Headers) :
  (forall name, mapHeaderToS3Property probe name =
                OriginFetcher.mapHeaderToS3Property fetcher name) ->
  forwardHeaders probe input headers =
  OriginFetcher.forwardHeaders fetcher input headers.
Proof.
  intros Hmap. revert input.
  induction headers as [|[name value] rest IH]; intros input; [reflexivity|].
  cbn [forwardHeaders OriginFetcher.forwardHeaders].
  now rewrite Hmap, IH.
Qed.

Lemma same_command_input_witness :
  forwardHeaders (example_env (Ok None) (Ok None))
                 [("Bucket", "b"); ("Key", "k")]
                 [("X-Amz-Checksum-Mode", "ENABLED"); ("Accept", "*/*")] =
  OriginFetcher.forwardHeaders
    (FetcherProps.example_env FetcherProps.jpeg_object
                              (FetcherProps.untyped_response []))
    [("Bucket", "b"); ("Key", "k")]
    [("X-Amz-Checksum-Mode", "ENABLED"); ("Accept", "*/*")].
Proof. apply same_command_input. reflexivity. Defined.

End ProbeMore.
